(** * RFID access controller (rfid_arduino_standalone.ino)

    A shallow embedding of the sketch: the RDM6300 frame check, the
    EEPROM table of authorized fobs, and the session state machine that
    [loop()] runs, followed by the properties established about them.

    Conventions.  [int] and [unsigned long] values are integers in [Z];
    the 32-bit wrap-around of [unsigned long] arithmetic is written out
    with [mod 2^32].  EEPROM addresses and loop counters are [nat].  Pin
    levels are [bool] ([true] is HIGH). *)

From Stdlib Require Import ZArith Lia Bool String.
From stdpp Require Import base list.

Local Open Scope Z_scope.

(** ** Settings and constants of the sketch *)

(** [const unsigned long adminTagsList[]]: the initialisers are converted
    to 32 bits, the list ends with a 0 entry. *)
Definition adminTagsList : list Z := [0xb0009afb7f mod 2^32; 0].

Definition startupTimeout : Z := 10000.
Definition deniedTimeout : Z := 3000.
Definition addTagTimeout : Z := 5000.
Definition runningStopTimeout : Z := 3000.

Definition SHORTBUZZ : Z := 150.
Definition LONGBUZZ : Z := 500.
Definition GOODBUZZTONE : Z := 2000.
Definition BADBUZZTONE : Z := 1000.

Definition keepRunningOnPowerup : bool := false.

Definition ADMINDOWN : bool := false.
Definition RELAYON : bool := true.
Definition RELAYOFF : bool := false.
Definition RUNON : bool := true.
Definition RUNOFF : bool := false.

Definition eepLength : nat := 1024.

Definition statusEmpty : Z := 0.
Definition statusAuthorized : Z := 1.
Definition statusAdmin : Z := 2.

(** Possible system states ([const int STATUS...]). *)
Inductive status : Set :=
| STATUSUNK
| STATUSOFF
| STATUSON
| STATUSTURNON
| STATUSDENIED
| STATUSADD
| STATUSADDED
| STATUSDEL
| STATUSTURNOFF.

Definition status_eqb (a b : status) : bool :=
  match a, b with
  | STATUSUNK, STATUSUNK | STATUSOFF, STATUSOFF | STATUSON, STATUSON
  | STATUSTURNON, STATUSTURNON | STATUSDENIED, STATUSDENIED
  | STATUSADD, STATUSADD | STATUSADDED, STATUSADDED
  | STATUSDEL, STATUSDEL | STATUSTURNOFF, STATUSTURNOFF => true
  | _, _ => false
  end.

(** ** EEPROM *)

(** [EEPROM.read]: a byte of the persistent memory.  The sketch only
    reads addresses below [eepLength]; outside the list the model
    returns 0. *)
Definition EEPROM_read (e : list Z) (addr : nat) : Z := default 0 (e !! addr).

(** [EEPROM.write] takes a [uint8_t]: the value is truncated to 8 bits. *)
Definition EEPROM_write (e : list Z) (addr : nat) (value : Z) : list Z :=
  <[addr := value mod 256]> e.

(** The addresses visited by
    [for( eepAddr=0; eepAddr<eepLength-5; eepAddr+=5 )],
    the loop header shared by the three table functions. *)
Fixpoint eepAddrs (fuel : nat) (eepAddr : nat) : list nat :=
  match fuel with
  | O => []
  | S fuel' =>
      if (eepAddr <? eepLength - 5)%nat
      then eepAddr :: eepAddrs fuel' (eepAddr + 5)%nat
      else []
  end.

Definition slot_addrs : list nat := eepAddrs eepLength 0%nat.

(** Number of 5-byte entries of the table. *)
Definition slot_count : nat := 204.

(** [checkAdminTag]: scan [adminTagsList] until the 0 entry. *)
Fixpoint checkAdminTag_from (l : list Z) (fobId : Z) : Z :=
  match l with
  | [] => 0
  | t :: rest =>
      if t =? 0 then 0
      else if fobId =? t then statusAdmin
      else checkAdminTag_from rest fobId
  end.

Definition checkAdminTag (fobId : Z) : Z := checkAdminTag_from adminTagsList fobId.

(** The inner loop of [checkAuthTag]: the 4-byte id of an entry, most
    significant byte first. *)
Definition read_entryId (e : list Z) (eepAddr : nat) : Z :=
  fold_left
    (fun entryId i =>
       ((Z.shiftl entryId 8) mod 2^32 + EEPROM_read e (eepAddr + i)%nat) mod 2^32)
    (seq 0 4) 0.

(** One pass of the outer loop of [checkAuthTag]. *)
Definition checkAuthTag_step (e : list Z) (fobId : Z) (entryStatus : Z) (eepAddr : nat) : Z :=
  if read_entryId e eepAddr =? fobId
  then EEPROM_read e (eepAddr + 4)%nat
  else entryStatus.

(** [checkAuthTag]: every entry is visited, [entryStatus] starts at 0 and
    is overwritten at each entry whose id equals [fobId]. *)
Definition checkAuthTag (e : list Z) (fobId : Z) : Z :=
  fold_left (checkAuthTag_step e fobId) slot_addrs 0.

(** The test [entryStatus == statusEmpty || entryStatus == 0xFF]. *)
Definition entry_free (entryStatus : Z) : bool :=
  (entryStatus =? statusEmpty) || (entryStatus =? 0xFF).

(** The five writes of [addAuthTag] at the entry found. *)
Definition write_entry (e : list Z) (eepAddr : nat) (fobId : Z) : list Z :=
  let e := EEPROM_write e eepAddr (Z.land (Z.shiftr fobId 24) 0xFF) in
  let e := EEPROM_write e (eepAddr + 1)%nat (Z.land (Z.shiftr fobId 16) 0xFF) in
  let e := EEPROM_write e (eepAddr + 2)%nat (Z.land (Z.shiftr fobId 8) 0xFF) in
  let e := EEPROM_write e (eepAddr + 3)%nat (Z.land fobId 0xFF) in
  EEPROM_write e (eepAddr + 4)%nat statusAuthorized.

(** [addAuthTag]: the loop returns at the first entry whose status byte
    is 0 or 0xFF; after the loop the function returns 0.  The result is
    the new EEPROM contents and the returned [int]. *)
Fixpoint addAuthTag_scan (addrs : list nat) (e : list Z) (fobId : Z) : list Z * Z :=
  match addrs with
  | [] => (e, 0)
  | eepAddr :: rest =>
      let entryStatus := EEPROM_read e (eepAddr + 4)%nat in
      if entry_free entryStatus
      then (write_entry e eepAddr fobId, statusAuthorized)
      else addAuthTag_scan rest e fobId
  end.

Definition addAuthTag (e : list Z) (fobId : Z) : list Z * Z :=
  addAuthTag_scan slot_addrs e fobId.

(** One pass of the loop of [clearAuthTags]. *)
Definition clearAuthTags_step (e : list Z) (eepAddr : nat) : list Z :=
  EEPROM_write e (eepAddr + 4)%nat statusEmpty.

(** [clearAuthTags]: the status byte of every entry is written 0. *)
Definition clearAuthTags (e : list Z) : list Z :=
  fold_left clearAuthTags_step slot_addrs e.

(** ** RDM6300 frames *)

(** The bit-order reversal of one received value:
    [for( i=0; i<8; i++ ) if( val & (1<<i) ) packet |= (1<<7-i);]. *)
Definition reverse_bits (val : Z) : Z :=
  fold_left
    (fun acc i =>
       if Z.land val (Z.shiftl 1 i) =? 0 then acc
       else Z.lor acc (Z.shiftl 1 (7 - i)))
    (map Z.of_nat (seq 0 8)) 0.

(** The receive loop [while( available() > 0 && idPacketLen < 6 )].
    [vals] lists the values [strtol] returns for the successive pairs of
    characters that [readBytesUntil] yields while data is available. *)
Fixpoint rx_packet (vals : list Z) (idPacketLen : nat) : list Z :=
  match vals with
  | [] => []
  | val :: rest =>
      if (idPacketLen <? 6)%nat
      then reverse_bits val :: rx_packet rest (S idPacketLen)
      else []
  end.

(** [val = 0; for( i=0; i<6; i++ ) val ^= fobIdPacket[i];] *)
Definition checksum (fobIdPacket : list Z) : Z :=
  fold_left Z.lxor (firstn 6 fobIdPacket) 0.

(** The loop [for( i=1; i<6; i++ ) if( packet[i] != packet[0] ) break;]:
    the value of [i] when the loop is left, scanning [rest] from index
    [i]. *)
Fixpoint same_scan (first : Z) (rest : list Z) (i : nat) : nat :=
  match rest with
  | [] => i
  | b :: rest' =>
      if (i <? 6)%nat
      then if b =? first then same_scan first rest' (S i) else i
      else i
  end.

(** [fobId = 0; for( i=0; i<4; i++ ) fobId = (fobId<<8) + fobIdPacket[1+i];] *)
Definition assemble_fobId (fobIdPacket : list Z) : Z :=
  fold_left
    (fun fobId i =>
       ((Z.shiftl fobId 8) mod 2^32 + default 0 (fobIdPacket !! (1 + i)%nat)) mod 2^32)
    (seq 0 4) 0.

(** The checks on a received packet: its length, its checksum, and the
    all-bytes-identical test.  [None] is a [return] from [loop()]. *)
Definition check_packet (fobIdPacket : list Z) : option Z :=
  if negb (length fobIdPacket =? 6)%nat then None
  else if negb (checksum fobIdPacket =? 0) then None
  else
    match fobIdPacket with
    | [] => None
    | first :: rest =>
        if (6 <=? same_scan first rest 1)%nat then None
        else Some (assemble_fobId fobIdPacket)
    end.

(** What the serial port delivers in one pass of [loop()]: nothing
    ([available() == 0]), or a first byte followed by the values decoded
    from the following character pairs. *)
Definition rfid_input : Type := option (Z * list Z).

Definition rfid_receive (rx : rfid_input) : option Z :=
  match rx with
  | None => None
  | Some (start, vals) =>
      if negb (start =? 0x02) then None
      else check_packet (rx_packet vals 0)
  end.

(** ** The session state machine *)

(** What [loop()] sends to the outside besides pin levels: a line on the
    serial log (event name, fob id, seconds field), a buzzer tone, a
    blocking delay. *)
Inductive effect : Type :=
| Serial_println (event : string) (fobId : Z) (seconds : Z)
| tone (frequency : Z) (duration : Z)
| delay (ms : Z).

(** The global variables of the sketch, the levels last written to the
    output pins, and the EEPROM contents. *)
Record state : Type := mkState {
  systemStatus : status;
  bootAdminMode : bool;
  fobPresentMilli : Z;
  runTimeMilli : Z;
  runningGraceMilli : Z;
  activeFobId : Z;
  relayPin : bool;
  ledGreenPin : bool;
  ledRedPin : bool;
  EEPROM : list Z
}.

Definition set_systemStatus (v : status) (st : state) : state :=
  mkState v (bootAdminMode st) (fobPresentMilli st) (runTimeMilli st)
    (runningGraceMilli st) (activeFobId st) (relayPin st) (ledGreenPin st)
    (ledRedPin st) (EEPROM st).

Definition set_bootAdminMode (v : bool) (st : state) : state :=
  mkState (systemStatus st) v (fobPresentMilli st) (runTimeMilli st)
    (runningGraceMilli st) (activeFobId st) (relayPin st) (ledGreenPin st)
    (ledRedPin st) (EEPROM st).

Definition set_fobPresentMilli (v : Z) (st : state) : state :=
  mkState (systemStatus st) (bootAdminMode st) v (runTimeMilli st)
    (runningGraceMilli st) (activeFobId st) (relayPin st) (ledGreenPin st)
    (ledRedPin st) (EEPROM st).

Definition set_runTimeMilli (v : Z) (st : state) : state :=
  mkState (systemStatus st) (bootAdminMode st) (fobPresentMilli st) v
    (runningGraceMilli st) (activeFobId st) (relayPin st) (ledGreenPin st)
    (ledRedPin st) (EEPROM st).

Definition set_runningGraceMilli (v : Z) (st : state) : state :=
  mkState (systemStatus st) (bootAdminMode st) (fobPresentMilli st)
    (runTimeMilli st) v (activeFobId st) (relayPin st) (ledGreenPin st)
    (ledRedPin st) (EEPROM st).

Definition set_activeFobId (v : Z) (st : state) : state :=
  mkState (systemStatus st) (bootAdminMode st) (fobPresentMilli st)
    (runTimeMilli st) (runningGraceMilli st) v (relayPin st) (ledGreenPin st)
    (ledRedPin st) (EEPROM st).

Definition set_relayPin (v : bool) (st : state) : state :=
  mkState (systemStatus st) (bootAdminMode st) (fobPresentMilli st)
    (runTimeMilli st) (runningGraceMilli st) (activeFobId st) v
    (ledGreenPin st) (ledRedPin st) (EEPROM st).

(** The pair [digitalWrite( ledGreenPin, g ); digitalWrite( ledRedPin, r );]. *)
Definition set_leds (g r : bool) (st : state) : state :=
  mkState (systemStatus st) (bootAdminMode st) (fobPresentMilli st)
    (runTimeMilli st) (runningGraceMilli st) (activeFobId st) (relayPin st)
    g r (EEPROM st).

Definition set_EEPROM (v : list Z) (st : state) : state :=
  mkState (systemStatus st) (bootAdminMode st) (fobPresentMilli st)
    (runTimeMilli st) (runningGraceMilli st) (activeFobId st) (relayPin st)
    (ledGreenPin st) (ledRedPin st) v.

(** What one pass of [loop()] reads from the outside.  The running pins
    are read at most once per pass, the admin button at most once by the
    timed rules and once more after a frame was accepted; [millis()] is
    sampled while the timed rules run, when a frame is accepted, and at
    the end of the erase branch. *)
Record inputs : Type := mkInputs {
  in_runningPin : bool;
  in_runningPinInv : bool;
  in_adminButtonPin : bool;
  in_millis : Z;
  in_rfid : rfid_input;
  in_adminButtonPin_rx : bool;
  in_millis_rx : Z;
  in_millis_del : Z
}.

(** [digitalRead(runningPin) == RUNON || digitalRead(runningPinInv) == !RUNON] *)
Definition machine_running (inp : inputs) : bool :=
  eqb (in_runningPin inp) RUNON || eqb (in_runningPinInv inp) (negb RUNON).

(** The guard [millis() > marker + timeout] on [unsigned long]. *)
Definition timed_out (now marker timeout : Z) : bool :=
  (marker + timeout) mod 2^32 <? now.

(** [(millis() - marker) / 1000] on [unsigned long]. *)
Definition seconds_since (now marker : Z) : Z := ((now - marker) mod 2^32) / 1000.

(** [((millis() - marker) / 500) % 2] on [unsigned long], as a condition. *)
Definition blink_phase (now marker : Z) : bool :=
  negb ((((now - marker) mod 2^32) / 500) mod 2 =? 0).

(** The [if] / [else if] chain at the head of [loop()]. *)
Definition timed_rules (inp : inputs) (st : state) : state * list effect :=
  let now := in_millis inp in
  let s := systemStatus st in
  if status_eqb s STATUSTURNON && machine_running inp then
    (set_runTimeMilli now (set_systemStatus STATUSON st),
     [Serial_println "start" (activeFobId st) 0])
  else if status_eqb s STATUSON && negb (machine_running inp) then
    (set_runningGraceMilli now (set_systemStatus STATUSTURNOFF st),
     [Serial_println "stop" (activeFobId st) (seconds_since now (runTimeMilli st))])
  else if status_eqb s STATUSTURNOFF && machine_running inp then
    (set_systemStatus STATUSON st,
     [Serial_println "restart" (activeFobId st) (seconds_since now (runTimeMilli st))])
  else if status_eqb s STATUSTURNOFF
          && timed_out now (runningGraceMilli st) runningStopTimeout then
    (set_relayPin RELAYOFF (set_leds false false (set_systemStatus STATUSOFF st)),
     [Serial_println "logout" (activeFobId st) (seconds_since now (runTimeMilli st));
      tone BADBUZZTONE LONGBUZZ])
  else if status_eqb s STATUSTURNON
          && timed_out now (fobPresentMilli st) startupTimeout then
    (set_relayPin RELAYOFF (set_leds false false (set_systemStatus STATUSOFF st)),
     [Serial_println "timeout" (activeFobId st) 0; tone BADBUZZTONE LONGBUZZ])
  else if status_eqb s STATUSDENIED
          && timed_out now (fobPresentMilli st) deniedTimeout then
    (set_leds false false (set_systemStatus STATUSOFF st), [])
  else if status_eqb s STATUSADD
          && timed_out now (fobPresentMilli st) addTagTimeout then
    (set_leds false false (set_systemStatus STATUSOFF st), [])
  else if status_eqb s STATUSADD && negb (eqb (in_adminButtonPin inp) ADMINDOWN) then
    (set_leds false false (set_systemStatus STATUSOFF st), [])
  else if status_eqb s STATUSADD then
    if blink_phase now (fobPresentMilli st)
    then (set_leds false false st, [])
    else (set_leds true false st, [])
  else if status_eqb s STATUSADDED
          && timed_out now (fobPresentMilli st) deniedTimeout then
    (set_leds false false (set_systemStatus STATUSOFF st), [])
  else if status_eqb s STATUSDEL
          && timed_out now (fobPresentMilli st) deniedTimeout then
    (set_leds false false (set_systemStatus STATUSOFF st), [])
  else if status_eqb s STATUSDEL then
    if blink_phase now (fobPresentMilli st)
    then (set_leds false false st, [])
    else (set_leds false true st, [])
  else if bootAdminMode st && negb (eqb (in_adminButtonPin inp) ADMINDOWN) then
    (set_leds false false (set_bootAdminMode false st), [])
  else if bootAdminMode st then
    if blink_phase now 0
    then (set_leds true false st, [])
    else (set_leds false true st, [])
  else (st, []).

(** The three short tones of the erase branch, the two of the add
    branch. *)
Definition buzz3 : list effect :=
  [tone GOODBUZZTONE SHORTBUZZ; delay SHORTBUZZ;
   tone GOODBUZZTONE SHORTBUZZ; delay SHORTBUZZ;
   tone GOODBUZZTONE SHORTBUZZ].

Definition buzz2 : list effect :=
  [tone GOODBUZZTONE SHORTBUZZ; delay SHORTBUZZ; tone GOODBUZZTONE SHORTBUZZ].

(** The part of [loop()] that follows an accepted frame, after
    [fobPresentMilli] was set: [adminButton] is the level read from the
    admin button, [now_del] the [millis()] sample of the erase branch. *)
Definition present_fob (adminButton : bool) (now_del : Z) (fobId : Z) (st : state)
  : state * list effect :=
  let s := systemStatus st in
  if eqb adminButton ADMINDOWN
     && negb (status_eqb s STATUSON) && negb (status_eqb s STATUSTURNON) then
    if checkAdminTag fobId =? statusAdmin then
      if bootAdminMode st then
        let '(st1, eff) :=
          if negb (status_eqb s STATUSDEL) || negb (activeFobId st =? fobId) then
            (set_systemStatus STATUSDEL
               (set_EEPROM (clearAuthTags (EEPROM st)) (set_leds false true st)),
             Serial_println "deleted" fobId 0 :: buzz3)
          else (st, []) in
        (set_fobPresentMilli now_del (set_activeFobId fobId st1), eff)
      else
        let '(st1, eff) :=
          if negb (status_eqb s STATUSADD) || negb (activeFobId st =? fobId) then
            (set_leds true false (set_systemStatus STATUSADD st),
             [Serial_println "admin" fobId 0; tone GOODBUZZTONE SHORTBUZZ])
          else (st, []) in
        (set_activeFobId fobId st1, eff)
    else if status_eqb s STATUSADD && (checkAuthTag (EEPROM st) fobId =? 0) then
      let '(e', added) := addAuthTag (EEPROM st) fobId in
      (set_systemStatus (if added =? 0 then STATUSDEL else STATUSADDED)
         (set_EEPROM e' st),
       Serial_println "added" fobId 0 :: buzz2)
    else (st, [])
  else
    if negb (checkAuthTag (EEPROM st) fobId =? 0) || negb (checkAdminTag fobId =? 0) then
      let st1 := set_relayPin RELAYON (set_leds true false st) in
      if negb (status_eqb s STATUSON) then
        if negb (status_eqb s STATUSTURNON) then
          (set_systemStatus STATUSTURNON (set_activeFobId fobId st1),
           [tone GOODBUZZTONE SHORTBUZZ; Serial_println "login" fobId 0])
        else (set_systemStatus STATUSTURNON st1, [])
      else (st1, [])
    else if status_eqb s STATUSOFF || status_eqb s STATUSTURNON then
      let st1 := set_leds false true st in
      if negb (status_eqb s STATUSDENIED) || negb (activeFobId st =? fobId) then
        (set_systemStatus STATUSDENIED (set_relayPin RELAYOFF st1),
         [tone BADBUZZTONE LONGBUZZ; Serial_println "denied" fobId 0])
      else (st1, [])
    else (st, []).

(** One pass of [loop()]: the timed rules, then the serial port; every
    [return] of the receive part leaves the state as the timed rules
    left it. *)
Definition loop (inp : inputs) (st : state) : state * list effect :=
  let '(st1, eff1) := timed_rules inp st in
  match rfid_receive (in_rfid inp) with
  | None => (st1, eff1)
  | Some fobId =>
      let st2 := set_fobPresentMilli (in_millis_rx inp) st1 in
      let '(st3, eff3) :=
        present_fob (in_adminButtonPin_rx inp) (in_millis_del inp) fobId st2 in
      (st3, eff1 ++ eff3)
  end.

(** What [setup()] reads: the running pins, the admin button, [millis()]. *)
Record boot_inputs : Type := mkBoot {
  boot_runningPin : bool;
  boot_runningPinInv : bool;
  boot_adminButtonPin : bool;
  boot_millis : Z
}.

(** The globals as the C runtime initialises them, over EEPROM contents
    [e] that survived the reset. *)
Definition power_on (e : list Z) : state :=
  mkState STATUSUNK false 0 0 0 0 false false false e.

Definition setup (b : boot_inputs) (e : list Z) : state * list effect :=
  let st0 := set_leds false false (power_on e) in
  let '(st1, eff1) :=
    if keepRunningOnPowerup
       && (eqb (boot_runningPin b) RUNON || eqb (boot_runningPinInv b) (negb RUNON))
    then
      (set_runTimeMilli (boot_millis b)
         (set_leds true false (set_relayPin RELAYON (set_systemStatus STATUSON st0))),
       [Serial_println "bootrun" 0 0])
    else
      (set_leds false false (set_relayPin RELAYOFF (set_systemStatus STATUSOFF st0)),
       [Serial_println "boot" 0 0]) in
  let '(st2, eff2) :=
    if eqb (boot_adminButtonPin b) ADMINDOWN then
      (set_leds false false
         (set_relayPin RELAYOFF
            (set_systemStatus STATUSOFF (set_bootAdminMode true st1))),
       [Serial_println "bootadmin" 0 0])
    else (set_bootAdminMode false st1, []) in
  if status_eqb (systemStatus st2) STATUSOFF && negb (bootAdminMode st2) then
    (set_leds false false st2, eff1 ++ eff2 ++ [delay 150; delay 150; delay 150])
  else (st2, eff1 ++ eff2).

(** [loop()] run over and over, one element of [inps] per pass. *)
Fixpoint run (inps : list inputs) (st : state) : state * list effect :=
  match inps with
  | [] => (st, [])
  | inp :: rest =>
      let '(st1, eff1) := loop inp st in
      let '(st2, eff2) := run rest st1 in
      (st2, eff1 ++ eff2)
  end.

(** The lines of the serial log with a given event name. *)
Definition is_log (name : string) (x : effect) : bool :=
  match x with
  | Serial_println event _ _ => String.eqb event name
  | _ => false
  end.

(** The lines of the serial log among the effects: event name and fob
    id. *)
Fixpoint printed (effs : list effect) : list (string * Z) :=
  match effs with
  | [] => []
  | Serial_println event fobId _ :: rest => (event, fobId) :: printed rest
  | _ :: rest => printed rest
  end.

Fixpoint count_log (name : string) (effs : list effect) : nat :=
  match effs with
  | [] => 0%nat
  | x :: rest => ((if is_log name x then 1 else 0) + count_log name rest)%nat
  end.

(** ** Vocabulary of the statements *)

(** Entry [k] of the table: its status byte and its 4-byte id. *)
Definition slot_status (e : list Z) (k : nat) : Z := EEPROM_read e (5 * k + 4)%nat.

Definition slot_id (e : list Z) (k : nat) : Z := read_entryId e (5 * k)%nat.

(** No entry is free for [addAuthTag]. *)
Definition store_full (e : list Z) : Prop :=
  forall k, (k < slot_count)%nat -> entry_free (slot_status e k) = false.

(** An EEPROM as it leaves the factory: every byte is 0xFF. *)
Definition factory_eeprom : list Z := replicate eepLength 0xFF.

(** A table that was filled with two fobs, erased, and then given the
    second fob again. *)
Definition fobA : Z := 0x11111111.
Definition fobB : Z := 0x22222222.

Definition erased_eeprom : list Z :=
  clearAuthTags (fst (addAuthTag (fst (addAuthTag factory_eeprom fobA)) fobB)).

Definition reenrolled_eeprom : list Z := fst (addAuthTag erased_eeprom fobB).

(** Two states describe the same session when they agree on the status,
    the active fob, the boot-admin flag and the EEPROM; time stamps and
    pin levels may differ. *)
Definition same_session (a b : state) : Prop :=
  systemStatus a = systemStatus b
  /\ activeFobId a = activeFobId b
  /\ bootAdminMode a = bootAdminMode b
  /\ EEPROM a = EEPROM b.

(** Repeated reads of one fob with the admin button at one level:
    between two reads the state may change in any way that keeps the
    session. *)
Inductive rereads (adminButton : bool) (fobId : Z) : state -> list effect -> state -> Prop :=
| rereads_done st : rereads adminButton fobId st [] st
| rereads_more st st' now_del st1 eff1 st2 eff2 :
    same_session st st' ->
    present_fob adminButton now_del fobId st' = (st1, eff1) ->
    rereads adminButton fobId st1 eff2 st2 ->
    rereads adminButton fobId st (eff1 ++ eff2) st2.

(** ** Example inputs *)

(** The fob of [adminTagsList] and its frame, the example message of
    the sketch: [02 30 44 30 30 35 39 44 46 46 45 37 35 03], that is the
    characters "0D0059DFFE75"; after the bit reversal of each byte the
    payload is [b0 00 9a fb 7f ae]. *)
Definition admin_fob : Z := 0x009afb7f.

Definition admin_frame : rfid_input :=
  Some (0x02, [0x0D; 0x00; 0x59; 0xDF; 0xFE; 0x75]).

(** The frame with payload [00 ff ff ff ff 00]. *)
Definition all_ones_frame : rfid_input :=
  Some (0x02, reverse_bits <$> [0x00; 0xff; 0xff; 0xff; 0xff; 0x00]).

(** A frame whose six bytes are all 0x11: its checksum is 0. *)
Definition constant_frame : rfid_input :=
  Some (0x02, reverse_bits <$> [0x11; 0x11; 0x11; 0x11; 0x11; 0x11]).

(** A normal power-up: machine stopped, admin button released. *)
Definition normal_boot : boot_inputs := mkBoot false true true 0.

(** A pass at time [t] with nothing on the serial port. *)
Definition quiet (running adminPressed : bool) (t : Z) : inputs :=
  mkInputs running true (negb adminPressed) t None (negb adminPressed) t t.

(** A pass at time [t] during which the frame [rx] is received. *)
Definition swipe (running adminPressed : bool) (t : Z) (rx : rfid_input) : inputs :=
  mkInputs running true (negb adminPressed) t rx (negb adminPressed) t t.

(** Log in with the admin fob, start the machine, stop it, and within
    the grace time present the admin fob with the admin button held. *)
Definition enroll_during_grace : list inputs :=
  [ swipe false false 1000 admin_frame;
    quiet true false 2000;
    quiet false false 3000;
    swipe false true 4000 admin_frame ].

(** ... then release the admin button, *)
Definition enroll_released : list inputs :=
  enroll_during_grace ++ [ quiet false false 4500 ].

(** ... or keep it held until the enrollment window is over. *)
Definition enroll_expired : list inputs :=
  enroll_during_grace ++ [ quiet false true 9500 ].

(** The frames of [fobA] and [fobB]: payloads [00 11 11 11 11 00] and
    [00 22 22 22 22 00]. *)
Definition fobA_frame : rfid_input :=
  Some (0x02, reverse_bits <$> [0x00; 0x11; 0x11; 0x11; 0x11; 0x00]).

Definition fobB_frame : rfid_input :=
  Some (0x02, reverse_bits <$> [0x00; 0x22; 0x22; 0x22; 0x22; 0x00]).

(** Enroll [fobA] and [fobB] with the admin fob and the admin button. *)
Definition enroll_two : list inputs :=
  [ swipe false true 1000 admin_frame;
    swipe false true 2000 fobA_frame;
    swipe false true 3000 admin_frame;
    swipe false true 4000 fobB_frame ].

(** A power-up with the admin button held. *)
Definition admin_boot : boot_inputs := mkBoot false true false 0.

(** In boot-admin mode present the admin fob (the table is erased), let
    the confirmation pass and release the button; then enroll [fobB]
    again, let the confirmation pass, and present [fobB] with the
    button released. *)
Definition erase_and_reenroll : list inputs :=
  [ swipe false true 1000 admin_frame;
    quiet false true 5000;
    quiet false false 5100;
    swipe false true 6000 admin_frame;
    swipe false true 7000 fobB_frame;
    quiet false false 11000;
    swipe false false 12000 fobB_frame ].

(** Reads of one fob with the admin button at any level, one level per
    read; between two reads the state may change in any way that keeps
    the session. *)
Inductive reads (fobId : Z) : state -> list effect -> state -> Prop :=
| reads_done st : reads fobId st [] st
| reads_more st st' adminButton now_del st1 eff1 st2 eff2 :
    same_session st st' ->
    present_fob adminButton now_del fobId st' = (st1, eff1) ->
    reads fobId st1 eff2 st2 ->
    reads fobId st (eff1 ++ eff2) st2.

(** States in which a read of [fobId] cannot print "admin" any more:
    the fob is no admin fob, or the sketch is in boot-admin mode, or the
    fob is the one that entered [STATUSADD], or the relay is on. *)
Definition admin_settled (fobId : Z) (st : state) : bool :=
  negb (checkAdminTag fobId =? statusAdmin)
  || bootAdminMode st
  || (status_eqb (systemStatus st) STATUSADD && (activeFobId st =? fobId))
  || status_eqb (systemStatus st) STATUSTURNON
  || status_eqb (systemStatus st) STATUSON.

(** The same for "deleted". *)
Definition erase_settled (fobId : Z) (st : state) : bool :=
  negb (checkAdminTag fobId =? statusAdmin)
  || negb (bootAdminMode st)
  || (status_eqb (systemStatus st) STATUSDEL && (activeFobId st =? fobId))
  || status_eqb (systemStatus st) STATUSTURNON
  || status_eqb (systemStatus st) STATUSON.

(** The same for "denied": the fob was denied and is still unknown. *)
Definition denial_settled (fobId : Z) (st : state) : bool :=
  status_eqb (systemStatus st) STATUSDENIED
  && (checkAuthTag (EEPROM st) fobId =? 0)
  && negb (checkAdminTag fobId =? statusAdmin).

(** How one read relates the number of lines of one kind it prints to
    the settled states of that kind: it prints none and stays settled if
    it was, or it prints one, was not settled, and is settled after. *)
Definition fires_once (printed : nat) (before after : bool) : Prop :=
  (printed = 0%nat /\ (before = true -> after = true))
  \/ (printed = 1%nat /\ before = false /\ after = true).

(** ** Vocabulary of the further properties *)

(** [addAuthTag] called for each fob id of a list in turn: the final
    EEPROM contents and the values returned. *)
Fixpoint addAuthTags (e : list Z) (fobIds : list Z) : list Z * list Z :=
  match fobIds with
  | [] => (e, [])
  | fobId :: rest =>
      let '(e1, added) := addAuthTag e fobId in
      let '(e2, results) := addAuthTags e1 rest in
      (e2, added :: results)
  end.

(** The first [j] entries are authorized and the others are empty. *)
Definition filled_to (j : nat) (e : list Z) : Prop :=
  forall k, (k < slot_count)%nat ->
    slot_status e k = if (k <? j)%nat then statusAuthorized else statusEmpty.

(** The relay agrees with the status: the status is known, the relay
    is on while a session is open or in its grace time, and off while a
    fob is denied. *)
Definition relay_consistent (st : state) : bool :=
  match systemStatus st with
  | STATUSUNK => false
  | STATUSTURNON | STATUSON | STATUSTURNOFF => eqb (relayPin st) RELAYON
  | STATUSDENIED => eqb (relayPin st) RELAYOFF
  | _ => true
  end.

(** * Properties *)

(** ** The loop header *)

Lemma slot_addrs_eq : slot_addrs = (fun k => (5 * k)%nat) <$> seq 0 slot_count.
Proof. vm_compute. reflexivity. Qed.

(** The enumeration stops because the loop condition fails, not because
    the fuel runs out: more fuel visits the same addresses. *)
Lemma eepAddrs_fuel (k : nat) : forall a fuel,
  (eepLength - 5 <= a + 5 * k)%nat -> (k <= fuel)%nat ->
  eepAddrs fuel a = eepAddrs k a.
Proof.
  change (eepLength - 5)%nat with 1019%nat.
  induction k as [|k IH]; intros a fuel Ha Hf.
  - destruct fuel as [|fuel]; [reflexivity|]. simpl.
    destruct (Nat.ltb_spec a 1019); [lia|reflexivity].
  - destruct fuel as [|fuel]; [lia|]. simpl.
    destruct (Nat.ltb_spec a 1019); [|reflexivity].
    f_equal. apply IH; lia.
Qed.

Lemma slot_addrs_any_fuel (n : nat) : eepAddrs (eepLength + n) 0 = slot_addrs.
Proof.
  unfold slot_addrs.
  rewrite (eepAddrs_fuel 204 0 (eepLength + n)), (eepAddrs_fuel 204 0 eepLength);
    unfold eepLength; (reflexivity || lia).
Qed.

Lemma elem_of_slot_addrs (a : nat) :
  a ∈ slot_addrs <-> exists k, (k < slot_count)%nat /\ a = (5 * k)%nat.
Proof.
  rewrite slot_addrs_eq, list_elem_of_fmap. split.
  - intros (k & -> & Hk). apply elem_of_seq in Hk. exists k. split; [lia|reflexivity].
  - intros (k & Hk & ->). exists k. split; [reflexivity|]. apply elem_of_seq. lia.
Qed.

Lemma slot_addrs_split (k : nat) :
  (k < slot_count)%nat ->
  slot_addrs
  = ((fun j => (5 * j)%nat) <$> seq 0 k)
      ++ (5 * k)%nat :: ((fun j => (5 * j)%nat) <$> seq (S k) (slot_count - S k)).
Proof.
  intros Hk. rewrite slot_addrs_eq.
  replace slot_count with (k + S (slot_count - S k))%nat at 1 by lia.
  rewrite seq_app, fmap_app. simpl. reflexivity.
Qed.

(** ** EEPROM reads and writes *)

Lemma EEPROM_write_length (e : list Z) (a : nat) (v : Z) :
  length (EEPROM_write e a v) = length e.
Proof. apply length_insert. Qed.

Lemma EEPROM_read_write_eq (e : list Z) (a : nat) (v : Z) :
  (a < length e)%nat -> EEPROM_read (EEPROM_write e a v) a = v mod 256.
Proof.
  intros Ha. unfold EEPROM_read, EEPROM_write.
  rewrite list_lookup_insert_eq by exact Ha. reflexivity.
Qed.

Lemma EEPROM_write_lookup_ne (e : list Z) (a b : nat) (v : Z) :
  a <> b -> EEPROM_write e a v !! b = e !! b.
Proof. intros Hab. apply list_lookup_insert_ne. exact Hab. Qed.

Lemma EEPROM_read_write_ne (e : list Z) (a b : nat) (v : Z) :
  a <> b -> EEPROM_read (EEPROM_write e a v) b = EEPROM_read e b.
Proof.
  intros Hab. unfold EEPROM_read. rewrite EEPROM_write_lookup_ne by exact Hab.
  reflexivity.
Qed.

(** Writing the byte that is already there changes nothing. *)
Lemma EEPROM_write_same (e : list Z) (a : nat) (v : Z) :
  EEPROM_read e a = v mod 256 -> EEPROM_write e a v = e.
Proof.
  unfold EEPROM_read, EEPROM_write. intros Hv.
  destruct (e !! a) as [x|] eqn:Hx.
  - simpl in Hv. subst x. apply list_insert_id. exact Hx.
  - apply list_insert_ge. apply lookup_ge_None. exact Hx.
Qed.

Lemma factory_read (a : nat) : (a < eepLength)%nat -> EEPROM_read factory_eeprom a = 0xFF.
Proof.
  intros Ha. unfold EEPROM_read, factory_eeprom.
  rewrite lookup_replicate_2 by exact Ha. reflexivity.
Qed.

(** ** [clearAuthTags] *)

(** The loop of [clearAuthTags] over any list of addresses. *)
Lemma clear_over_length (addrs : list nat) : forall e,
  length (fold_left clearAuthTags_step addrs e) = length e.
Proof.
  induction addrs as [|x xs IH]; intros e; simpl; [reflexivity|].
  rewrite IH. apply EEPROM_write_length.
Qed.

Lemma clear_over_lookup_other (addrs : list nat) (a : nat) : forall e,
  (forall x, x ∈ addrs -> a <> (x + 4)%nat) ->
  fold_left clearAuthTags_step addrs e !! a = e !! a.
Proof.
  induction addrs as [|x xs IH]; intros e Hne; simpl; [reflexivity|].
  rewrite IH.
  - apply EEPROM_write_lookup_ne. intros Heq. apply (Hne x); [left|congruence].
  - intros y Hy. apply Hne. right. exact Hy.
Qed.

Lemma clear_over_lookup_status (addrs : list nat) (x : nat) : forall e,
  x ∈ addrs -> (x + 4 < length e)%nat ->
  fold_left clearAuthTags_step addrs e !! (x + 4)%nat = Some statusEmpty.
Proof.
  induction addrs as [|y ys IH]; intros e Hin Hlen; simpl.
  - inversion Hin.
  - destruct (decide (x ∈ ys)) as [Hys|Hys].
    + apply IH; [exact Hys|]. unfold clearAuthTags_step. rewrite EEPROM_write_length. exact Hlen.
    + assert (x = y) as -> by (apply elem_of_cons in Hin as [?|?]; [assumption|contradiction]).
      rewrite clear_over_lookup_other.
      * unfold clearAuthTags_step, EEPROM_write. rewrite list_lookup_insert_eq by exact Hlen.
        reflexivity.
      * intros z Hz Heq. apply Hys. replace y with z by lia. exact Hz.
Qed.

Lemma clear_over_id (addrs : list nat) : forall e,
  (forall x, x ∈ addrs -> EEPROM_read e (x + 4)%nat = statusEmpty) ->
  fold_left clearAuthTags_step addrs e = e.
Proof.
  induction addrs as [|x xs IH]; intros e Hz; simpl; [reflexivity|].
  unfold clearAuthTags_step at 2. rewrite EEPROM_write_same.
  - apply IH. intros y Hy. apply Hz. right. exact Hy.
  - rewrite Hz by left. reflexivity.
Qed.

Lemma clearAuthTags_length (e : list Z) : length (clearAuthTags e) = length e.
Proof. apply clear_over_length. Qed.

Lemma clearAuthTags_status (e : list Z) (k : nat) :
  length e = eepLength -> (k < slot_count)%nat ->
  slot_status (clearAuthTags e) k = statusEmpty.
Proof.
  intros Hlen Hk. unfold slot_status, EEPROM_read, clearAuthTags.
  rewrite clear_over_lookup_status; [reflexivity| |].
  - apply elem_of_slot_addrs. exists k. split; [exact Hk|reflexivity].
  - rewrite Hlen. unfold eepLength, slot_count in *. lia.
Qed.

Lemma clearAuthTags_id_bytes (e : list Z) (k i : nat) :
  (i < 4)%nat -> clearAuthTags e !! (5 * k + i)%nat = e !! (5 * k + i)%nat.
Proof.
  intros Hi. apply clear_over_lookup_other.
  intros x Hx. apply elem_of_slot_addrs in Hx as (j & _ & ->). lia.
Qed.

(** ** [addAuthTag] *)

Lemma write_entry_length (e : list Z) (x : nat) (fobId : Z) :
  length (write_entry e x fobId) = length e.
Proof. unfold write_entry. rewrite !EEPROM_write_length. reflexivity. Qed.

Lemma write_entry_lookup_other (e : list Z) (x a : nat) (fobId : Z) :
  (a < x \/ x + 5 <= a)%nat -> write_entry e x fobId !! a = e !! a.
Proof.
  intros Ha. unfold write_entry.
  rewrite !EEPROM_write_lookup_ne by lia. reflexivity.
Qed.

Lemma write_entry_status (e : list Z) (x : nat) (fobId : Z) :
  (x + 4 < length e)%nat ->
  EEPROM_read (write_entry e x fobId) (x + 4)%nat = statusAuthorized.
Proof.
  intros Hlen. unfold write_entry.
  rewrite EEPROM_read_write_eq by (rewrite !EEPROM_write_length; exact Hlen).
  reflexivity.
Qed.

(** The four id bytes written by [addAuthTag] are read back by
    [checkAuthTag] as the fob id. *)
Lemma fobId_bytes (fobId : Z) :
  0 <= fobId < 2^32 ->
  let b3 := (Z.land (Z.shiftr fobId 24) 0xFF) mod 256 in
  let b2 := (Z.land (Z.shiftr fobId 16) 0xFF) mod 256 in
  let b1 := (Z.land (Z.shiftr fobId 8) 0xFF) mod 256 in
  let b0 := (Z.land fobId 0xFF) mod 256 in
  ((Z.shiftl
      (((Z.shiftl
           (((Z.shiftl (((Z.shiftl 0 8) mod 2^32 + b3) mod 2^32) 8) mod 2^32 + b2)
              mod 2^32) 8) mod 2^32 + b1) mod 2^32) 8) mod 2^32 + b0) mod 2^32
  = fobId.
Proof.
  intros Hf b3 b2 b1 b0. subst b3 b2 b1 b0.
  change 0xFF with (Z.ones 8).
  rewrite !Z.land_ones, !Z.shiftl_mul_pow2, !Z.shiftr_div_pow2 by lia.
  change (2^8) with 256. change (2^16) with 65536. change (2^24) with 16777216.
  change (2^32) with 4294967296 in *.
  Z.div_mod_to_equations. lia.
Qed.

Lemma write_entry_bytes (e : list Z) (x : nat) (fobId : Z) :
  (x + 4 < length e)%nat ->
  EEPROM_read (write_entry e x fobId) x = (Z.land (Z.shiftr fobId 24) 0xFF) mod 256
  /\ EEPROM_read (write_entry e x fobId) (x + 1)%nat
     = (Z.land (Z.shiftr fobId 16) 0xFF) mod 256
  /\ EEPROM_read (write_entry e x fobId) (x + 2)%nat
     = (Z.land (Z.shiftr fobId 8) 0xFF) mod 256
  /\ EEPROM_read (write_entry e x fobId) (x + 3)%nat = (Z.land fobId 0xFF) mod 256.
Proof.
  intros Hlen. unfold write_entry.
  repeat split;
    repeat (rewrite EEPROM_read_write_ne by lia);
    (rewrite EEPROM_read_write_eq by (rewrite ?EEPROM_write_length; lia));
    reflexivity.
Qed.

Lemma write_entry_id (e : list Z) (x : nat) (fobId : Z) :
  (x + 4 < length e)%nat -> 0 <= fobId < 2^32 ->
  read_entryId (write_entry e x fobId) x = fobId.
Proof.
  intros Hlen Hf. unfold read_entryId. cbn [seq fold_left].
  destruct (write_entry_bytes e x fobId Hlen) as (H0 & H1 & H2 & H3).
  replace (x + 0)%nat with x by lia.
  rewrite H0, H1, H2, H3.
  apply fobId_bytes. exact Hf.
Qed.

Lemma addAuthTag_scan_none (addrs : list nat) (e : list Z) (fobId : Z) :
  (forall x, x ∈ addrs -> entry_free (EEPROM_read e (x + 4)%nat) = false) ->
  addAuthTag_scan addrs e fobId = (e, 0).
Proof.
  induction addrs as [|x xs IH]; intros Hfull; simpl; [reflexivity|].
  rewrite (Hfull x) by left. apply IH. intros y Hy. apply Hfull. right. exact Hy.
Qed.

Lemma addAuthTag_scan_first (pre post : list nat) (x : nat) (e : list Z) (fobId : Z) :
  (forall y, y ∈ pre -> entry_free (EEPROM_read e (y + 4)%nat) = false) ->
  entry_free (EEPROM_read e (x + 4)%nat) = true ->
  addAuthTag_scan (pre ++ x :: post) e fobId
  = (write_entry e x fobId, statusAuthorized).
Proof.
  induction pre as [|y ys IH]; intros Hpre Hx; simpl.
  - rewrite Hx. reflexivity.
  - rewrite (Hpre y) by left. apply IH; [|exact Hx].
    intros z Hz. apply Hpre. right. exact Hz.
Qed.

(** A bounded search either fails everywhere or has a first success. *)
Lemma first_true (p : nat -> bool) (n : nat) :
  (forall k, (k < n)%nat -> p k = false)
  \/ (exists k, (k < n)%nat /\ p k = true /\ forall j, (j < k)%nat -> p j = false).
Proof.
  induction n as [|n [IH|(k & Hk & Hp & Hmin)]].
  - left. intros k Hk. lia.
  - destruct (p n) eqn:Hn.
    + right. exists n. repeat split; [lia|exact Hn|]. intros j Hj. apply IH. exact Hj.
    + left. intros k Hk. destruct (decide (k = n)) as [->|Hne]; [exact Hn|].
      apply IH. lia.
  - right. exists k. repeat split; [lia|exact Hp|exact Hmin].
Qed.

Lemma addAuthTag_full (e : list Z) (fobId : Z) :
  store_full e -> addAuthTag e fobId = (e, 0).
Proof.
  intros Hfull. unfold addAuthTag.
  apply (addAuthTag_scan_none slot_addrs e fobId).
  intros x Hx. apply elem_of_slot_addrs in Hx as (k & Hk & ->). apply Hfull. exact Hk.
Qed.

Lemma addAuthTag_at_first_free (e : list Z) (fobId : Z) (k : nat) :
  (k < slot_count)%nat ->
  entry_free (slot_status e k) = true ->
  (forall j, (j < k)%nat -> entry_free (slot_status e j) = false) ->
  addAuthTag e fobId = (write_entry e (5 * k) fobId, statusAuthorized).
Proof.
  intros Hk Hfree Hmin. unfold addAuthTag.
  rewrite (slot_addrs_split k Hk). apply addAuthTag_scan_first; [|exact Hfree].
  intros y Hy. apply list_elem_of_fmap in Hy as (j & -> & Hj).
  apply elem_of_seq in Hj. apply Hmin. lia.
Qed.

(** ** [checkAuthTag] *)

Lemma checkAuthTag_fold_no_match (addrs : list nat) (e : list Z) (fobId acc : Z) :
  (forall x, x ∈ addrs -> read_entryId e x <> fobId) ->
  fold_left (checkAuthTag_step e fobId) addrs acc = acc.
Proof.
  revert acc. induction addrs as [|x xs IH]; intros acc Hno; cbn [fold_left]; [reflexivity|].
  rewrite IH by (intros y Hy; apply Hno; right; exact Hy).
  unfold checkAuthTag_step.
  destruct (Z.eqb_spec (read_entryId e x) fobId) as [Heq|_]; [|reflexivity].
  exfalso. apply (Hno x); [left|exact Heq].
Qed.

Lemma checkAuthTag_fold_all_zero (addrs : list nat) (e : list Z) (fobId : Z) :
  (forall x, x ∈ addrs -> EEPROM_read e (x + 4)%nat = 0) ->
  fold_left (checkAuthTag_step e fobId) addrs 0 = 0.
Proof.
  induction addrs as [|x xs IH]; intros Hz; cbn [fold_left]; [reflexivity|].
  replace (checkAuthTag_step e fobId 0 x) with 0.
  - apply IH. intros y Hy. apply Hz. right. exact Hy.
  - unfold checkAuthTag_step. destruct (_ =? _); [|reflexivity].
    symmetry. apply Hz. left.
Qed.

(** [checkAuthTag] returns 0 when no entry carries the id, and otherwise
    the status byte of the last entry that carries it, whatever that
    byte is. *)
Lemma checkAuthTag_no_match (e : list Z) (fobId : Z) :
  (forall k, (k < slot_count)%nat -> slot_id e k <> fobId) ->
  checkAuthTag e fobId = 0.
Proof.
  intros Hno. unfold checkAuthTag.
  apply (checkAuthTag_fold_no_match slot_addrs e fobId 0).
  intros x Hx. apply elem_of_slot_addrs in Hx as (k & Hk & ->). apply Hno. exact Hk.
Qed.

Lemma checkAuthTag_last_match (e : list Z) (fobId : Z) (k : nat) :
  (k < slot_count)%nat ->
  slot_id e k = fobId ->
  (forall j, (k < j < slot_count)%nat -> slot_id e j <> fobId) ->
  checkAuthTag e fobId = slot_status e k.
Proof.
  intros Hk Hid Hlast. unfold checkAuthTag.
  rewrite (slot_addrs_split k Hk), fold_left_app. cbn [fold_left].
  rewrite checkAuthTag_fold_no_match.
  - unfold checkAuthTag_step. fold (slot_id e k). rewrite Hid, Z.eqb_refl. reflexivity.
  - intros y Hy. apply list_elem_of_fmap in Hy as (j & -> & Hj).
    apply elem_of_seq in Hj. apply Hlast. lia.
Qed.

(** After [clearAuthTags] no fob is found any more. *)
Lemma checkAuthTag_clearAuthTags (e : list Z) (fobId : Z) :
  length e = eepLength -> checkAuthTag (clearAuthTags e) fobId = statusEmpty.
Proof.
  intros Hlen. unfold checkAuthTag.
  apply (checkAuthTag_fold_all_zero slot_addrs (clearAuthTags e) fobId).
  intros x Hx. apply elem_of_slot_addrs in Hx as (k & Hk & ->).
  apply (clearAuthTags_status e k Hlen Hk).
Qed.

(** When the entry written by [addAuthTag] is the last one carrying the
    id, the fob is found as authorized. *)
Lemma checkAuthTag_addAuthTag_fresh (e : list Z) (fobId : Z) (k : nat) :
  length e = eepLength -> 0 <= fobId < 2^32 ->
  (k < slot_count)%nat ->
  entry_free (slot_status e k) = true ->
  (forall j, (j < k)%nat -> entry_free (slot_status e j) = false) ->
  (forall j, (k < j < slot_count)%nat -> slot_id e j <> fobId) ->
  checkAuthTag (fst (addAuthTag e fobId)) fobId = statusAuthorized.
Proof.
  intros Hlen Hf Hk Hfree Hmin Hlater.
  rewrite (addAuthTag_at_first_free e fobId k Hk Hfree Hmin). cbn [fst].
  assert (Hin : (5 * k + 4 < length e)%nat)
    by (rewrite Hlen; unfold eepLength, slot_count in *; lia).
  rewrite (checkAuthTag_last_match _ fobId k Hk).
  - unfold slot_status. apply write_entry_status. exact Hin.
  - unfold slot_id. apply write_entry_id; assumption.
  - intros j Hj. specialize (Hlater j Hj). unfold slot_id, read_entryId in *.
    cbn [seq fold_left] in *. unfold EEPROM_read in *.
    rewrite !write_entry_lookup_other by lia. exact Hlater.
Qed.

(** ** The authorization table: erase, insert, lookup *)

(** C8.  [clearAuthTags] sets the status byte of every entry to
    [statusEmpty] and leaves the four id bytes of every entry as they
    were; on a table whose entries are all empty already it changes
    nothing at all. *)
Theorem clearAuthTags_resets_status_only (e : list Z) :
  length e = eepLength ->
  (forall k, (k < slot_count)%nat -> slot_status (clearAuthTags e) k = statusEmpty)
  /\ (forall k i, (k < slot_count)%nat -> (i < 4)%nat ->
        EEPROM_read (clearAuthTags e) (5 * k + i)%nat = EEPROM_read e (5 * k + i)%nat)
  /\ (forall k, (k < slot_count)%nat -> slot_id (clearAuthTags e) k = slot_id e k)
  /\ ((forall k, (k < slot_count)%nat -> slot_status e k = statusEmpty) ->
      clearAuthTags e = e).
Proof.
  intros Hlen. repeat split.
  - intros k Hk. apply clearAuthTags_status; assumption.
  - intros k i _ Hi. unfold EEPROM_read. rewrite clearAuthTags_id_bytes by exact Hi.
    reflexivity.
  - intros k _. unfold slot_id, read_entryId. cbn [seq fold_left]. unfold EEPROM_read.
    rewrite !clearAuthTags_id_bytes by lia. reflexivity.
  - intros Hall. unfold clearAuthTags. apply clear_over_id.
    intros x Hx. apply elem_of_slot_addrs in Hx as (k & Hk & ->). apply Hall. exact Hk.
Qed.

Lemma clearAuthTags_resets_status_only_witness :
  slot_status (clearAuthTags factory_eeprom) 7 = statusEmpty
  /\ slot_id (clearAuthTags factory_eeprom) 7 = slot_id factory_eeprom 7
  /\ clearAuthTags (replicate eepLength 0) = replicate eepLength 0.
Proof.
  assert (H7 : (7 < slot_count)%nat) by (unfold slot_count; lia).
  destruct (clearAuthTags_resets_status_only factory_eeprom eq_refl)
    as (Hstatus & _ & Hid & _).
  destruct (clearAuthTags_resets_status_only (replicate eepLength 0) eq_refl)
    as (_ & _ & _ & Hnoop).
  split; [exact (Hstatus 7%nat H7)|]. split; [exact (Hid 7%nat H7)|].
  apply Hnoop. intros k Hk. unfold slot_status, EEPROM_read.
  rewrite lookup_replicate_2; [reflexivity|].
  unfold eepLength, slot_count in *. lia.
Defined.

(** C7, as the sketch has it.  [addAuthTag] takes the first entry whose
    status byte is 0x00 ([statusEmpty]) or 0xFF (never written): it
    writes the fob id and [statusAuthorized] there and leaves every byte
    outside that entry unchanged; it returns 0 and changes nothing
    exactly when no entry has status 0x00 or 0xFF.  The ids in the table
    play no part: a fob that is in the table already is written
    again. *)
Theorem addAuthTag_first_free_slot (e : list Z) (fobId : Z) :
  length e = eepLength -> 0 <= fobId < 2^32 ->
  (forall k, (k < slot_count)%nat ->
     entry_free (slot_status e k) = true ->
     (forall j, (j < k)%nat -> entry_free (slot_status e j) = false) ->
     exists e',
       addAuthTag e fobId = (e', statusAuthorized)
       /\ slot_id e' k = fobId
       /\ slot_status e' k = statusAuthorized
       /\ length e' = length e
       /\ forall a, (a < 5 * k \/ 5 * k + 5 <= a)%nat -> e' !! a = e !! a)
  /\ (store_full e -> addAuthTag e fobId = (e, 0))
  /\ (snd (addAuthTag e fobId) = 0 <-> store_full e).
Proof.
  intros Hlen Hf.
  assert (Hfirst : forall k, (k < slot_count)%nat ->
            entry_free (slot_status e k) = true ->
            (forall j, (j < k)%nat -> entry_free (slot_status e j) = false) ->
            addAuthTag e fobId = (write_entry e (5 * k) fobId, statusAuthorized)).
  { intros k Hk Hfree Hmin. apply addAuthTag_at_first_free; assumption. }
  split; [|split].
  - intros k Hk Hfree Hmin. exists (write_entry e (5 * k) fobId).
    assert (Hin : (5 * k + 4 < length e)%nat)
      by (rewrite Hlen; unfold eepLength, slot_count in *; lia).
    split; [apply Hfirst; assumption|].
    split; [unfold slot_id; apply write_entry_id; assumption|].
    split; [unfold slot_status; apply write_entry_status; assumption|].
    split; [apply write_entry_length|].
    intros a Ha. apply write_entry_lookup_other. exact Ha.
  - apply addAuthTag_full.
  - split.
    + intros Hret.
      destruct (first_true (fun k => entry_free (slot_status e k)) slot_count)
        as [Hnone|(k & Hk & Hfree & Hmin)]; [exact Hnone|].
      rewrite (Hfirst k Hk Hfree Hmin) in Hret. discriminate Hret.
    + intros Hfull. rewrite (addAuthTag_full e fobId Hfull). reflexivity.
Qed.

Lemma addAuthTag_first_free_slot_witness :
  exists e',
    addAuthTag factory_eeprom fobA = (e', statusAuthorized)
    /\ slot_id e' 0 = fobA
    /\ slot_status e' 0 = statusAuthorized
    /\ length e' = length factory_eeprom
    /\ forall a, (a < 5 * 0 \/ 5 * 0 + 5 <= a)%nat -> e' !! a = factory_eeprom !! a.
Proof.
  assert (Hf : 0 <= fobA < 2^32) by (unfold fobA; lia).
  destruct (addAuthTag_first_free_slot factory_eeprom fobA eq_refl Hf) as (Hfirst & _).
  apply (Hfirst 0%nat).
  - unfold slot_count. lia.
  - reflexivity.
  - intros j Hj. lia.
Defined.

(** C7 as worded fails on a factory-fresh table: no entry has status
    [statusEmpty], and still [addAuthTag] succeeds and writes entry 0. *)
Lemma addAuthTag_factory_eeprom_not_full :
  (forall k, (k < slot_count)%nat -> slot_status factory_eeprom k <> statusEmpty)
  /\ snd (addAuthTag factory_eeprom fobA) = statusAuthorized
  /\ slot_id (fst (addAuthTag factory_eeprom fobA)) 0 = fobA
  /\ ~ (snd (addAuthTag factory_eeprom fobA) = 0
        <-> forall k, (k < slot_count)%nat -> slot_status factory_eeprom k <> statusEmpty).
Proof.
  assert (Hne : forall k, (k < slot_count)%nat -> slot_status factory_eeprom k <> statusEmpty).
  { intros k Hk. unfold slot_status. rewrite factory_read; [discriminate|].
    unfold eepLength, slot_count in *. lia. }
  split; [exact Hne|]. split; [vm_compute; reflexivity|].
  split; [vm_compute; reflexivity|].
  intros [_ Hback]. specialize (Hback Hne). vm_compute in Hback. discriminate Hback.
Qed.

(** A fob already in the table is entered a second time. *)
Example addAuthTag_duplicates :
  let e1 := fst (addAuthTag factory_eeprom fobA) in
  let e2 := fst (addAuthTag e1 fobA) in
  slot_id e2 0 = fobA /\ slot_status e2 0 = statusAuthorized
  /\ slot_id e2 1 = fobA /\ slot_status e2 1 = statusAuthorized.
Proof. vm_compute. repeat split; reflexivity. Qed.

(** C3, where the sketch departs from it.  Fill a factory-fresh table
    with [fobA] and [fobB], erase it, and add [fobB] again: [addAuthTag]
    reports success and writes entry 0, yet [checkAuthTag] returns
    [statusEmpty] for [fobB], because the erased entry 1 still carries
    the id of [fobB] and is visited later in the scan.  Run through
    [setup()] and [loop()]: after both fobs were enrolled, the table
    erased in boot-admin mode and [fobB] enrolled again ("added"),
    presenting [fobB] prints "denied". *)
Theorem reenrolled_fob_not_found :
  snd (addAuthTag erased_eeprom fobB) = statusAuthorized
  /\ checkAuthTag (fst (addAuthTag erased_eeprom fobB)) fobB = statusEmpty
  /\ checkAuthTag (fst (addAuthTag (fst (addAuthTag factory_eeprom fobA)) fobB)) fobB
     = statusAuthorized
  /\ (let enrolled := fst (run enroll_two (fst (setup normal_boot factory_eeprom))) in
      let r := run erase_and_reenroll (fst (setup admin_boot (EEPROM enrolled))) in
      printed (snd r)
      = [("deleted"%string, admin_fob); ("admin"%string, admin_fob);
         ("added"%string, fobB); ("denied"%string, fobB)]
      /\ systemStatus (fst r) = STATUSDENIED
      /\ relayPin (fst r) = RELAYOFF).
Proof. vm_compute. repeat split; reflexivity. Qed.

(** C4, where the sketch departs from it.  In the re-enrolled table the
    entries 0 and 1 both carry [fobB]; entry 0 is authorized, entry 1 is
    empty.  [checkAuthTag] returns the status byte of entry 1, the last
    entry with the id, although that entry is empty. *)
Theorem checkAuthTag_returns_stale_status :
  slot_id reenrolled_eeprom 0 = fobB
  /\ slot_status reenrolled_eeprom 0 = statusAuthorized
  /\ slot_id reenrolled_eeprom 1 = fobB
  /\ slot_status reenrolled_eeprom 1 = statusEmpty
  /\ checkAuthTag reenrolled_eeprom fobB = statusEmpty.
Proof. vm_compute. repeat split; reflexivity. Qed.

(** ** The frame check *)

Lemma reverse_bits_byte (val : Z) : 0 <= reverse_bits val < 256.
Proof.
  unfold reverse_bits. cbn [seq map fold_left].
  repeat match goal with
         | |- context [if ?c then _ else _] => destruct c
         end; vm_compute; split; congruence.
Qed.

(** On bytes the reversal is its own inverse, so every 6-byte payload is
    the reversal of some received values. *)
Lemma reverse_bits_involutive (b : Z) :
  0 <= b < 256 -> reverse_bits (reverse_bits b) = b.
Proof.
  intros Hb.
  assert (Hall : forallb (fun x => reverse_bits (reverse_bits x) =? x) (seqZ 0 256) = true)
    by (vm_compute; reflexivity).
  rewrite forallb_forall in Hall.
  apply Z.eqb_eq, Hall, list_elem_of_In, elem_of_seqZ. lia.
Qed.

Lemma loop_no_frame (inp : inputs) (st : state) :
  rfid_receive (in_rfid inp) = None -> loop inp st = timed_rules inp st.
Proof.
  intros Hrx. unfold loop. rewrite Hrx. destruct (timed_rules inp st). reflexivity.
Qed.

(** C2.  A 6-byte payload is accepted, and a fob id is produced from it,
    exactly when the XOR of its six bytes is 0 and the bytes are not
    all the same; a payload that is not accepted makes [loop()] return
    with nothing done beyond the timed rules. *)
Theorem check_packet_accepts_iff (b0 b1 b2 b3 b4 b5 : Z) :
  ((exists fobId, check_packet [b0; b1; b2; b3; b4; b5] = Some fobId)
   <-> (Z.lxor (Z.lxor (Z.lxor (Z.lxor (Z.lxor b0 b1) b2) b3) b4) b5 = 0
        /\ ~ (b1 = b0 /\ b2 = b0 /\ b3 = b0 /\ b4 = b0 /\ b5 = b0)))
  /\ (check_packet [b0; b1; b2; b3; b4; b5] = None ->
      forall inp st vals,
        in_rfid inp = Some (0x02, vals) ->
        rx_packet vals 0 = [b0; b1; b2; b3; b4; b5] ->
        loop inp st = timed_rules inp st).
Proof.
  split.
  - unfold check_packet, checksum.
    cbn [length Nat.eqb negb firstn fold_left same_scan Nat.ltb Nat.leb].
    rewrite Z.lxor_0_l.
    destruct (Z.eqb_spec (Z.lxor (Z.lxor (Z.lxor (Z.lxor (Z.lxor b0 b1) b2) b3) b4) b5) 0)
      as [Hx|Hx]; cbn [negb].
    + destruct (Z.eqb_spec b1 b0) as [H1|H1];
        [destruct (Z.eqb_spec b2 b0) as [H2|H2];
          [destruct (Z.eqb_spec b3 b0) as [H3|H3];
            [destruct (Z.eqb_spec b4 b0) as [H4|H4];
              [destruct (Z.eqb_spec b5 b0) as [H5|H5]| ]| ]| ]| ];
        cbn [Nat.leb];
        (split;
         [ intros [fobId Hsome]; split; [exact Hx|];
           first [ discriminate Hsome | intros (? & ? & ? & ? & ?); contradiction ]
         | intros [_ Hdiff]; first [ eexists; reflexivity | exfalso; apply Hdiff; auto ] ]).
    + split.
      * intros [fobId Hsome]. discriminate Hsome.
      * intros [Hzero _]. contradiction.
  - intros Hnone inp st vals Hrx Hvals. apply loop_no_frame.
    rewrite Hrx. unfold rfid_receive. rewrite Hvals.
    change (negb (0x02 =? 0x02)) with false. cbn iota. exact Hnone.
Qed.

Lemma check_packet_accepts_iff_witness :
  loop (swipe false false 1000 constant_frame) (power_on factory_eeprom)
  = timed_rules (swipe false false 1000 constant_frame) (power_on factory_eeprom).
Proof.
  apply (proj2 (check_packet_accepts_iff 0x11 0x11 0x11 0x11 0x11 0x11))
    with (vals := reverse_bits <$> [0x11; 0x11; 0x11; 0x11; 0x11; 0x11]).
  - vm_compute. reflexivity.
  - reflexivity.
  - vm_compute. reflexivity.
Defined.

(** The two example frames are accepted and give the expected ids. *)
Example admin_frame_accepted :
  rx_packet [0x0D; 0x00; 0x59; 0xDF; 0xFE; 0x75] 0 = [0xb0; 0x00; 0x9a; 0xfb; 0x7f; 0xae]
  /\ rfid_receive admin_frame = Some admin_fob.
Proof. vm_compute. split; reflexivity. Qed.

Example all_ones_frame_accepted : rfid_receive all_ones_frame = Some 0xFFFFFFFF.
Proof. vm_compute. reflexivity. Qed.

(** ** Timeouts *)

(** As long as [marker + timeout] does not pass 2^32 and the clock has
    not wrapped since the marker, the guard is the elapsed-time test. *)
Lemma timed_out_no_wrap (now marker timeout : Z) :
  0 <= marker -> 0 <= timeout -> marker + timeout < 2^32 ->
  marker <= now < 2^32 ->
  (timed_out now marker timeout = true <-> timeout < (now - marker) mod 2^32).
Proof.
  intros Hm Ht Hsum Hn. unfold timed_out.
  rewrite Z.ltb_lt, !Z.mod_small by lia. lia.
Qed.

(** C9, where the sketch departs from it.  With the marker 1000 ms
    before the clock wraps, the guard [millis() > marker + timeout]
    holds 10 ms after the marker, long before the 3000 ms of grace time
    are over, and the timed rules log the fob out; with the marker
    4000 ms before the wrap the guard still fails 4005 ms after it. *)
Theorem timed_out_near_wrap :
  let marker := 2^32 - 1000 in
  let now := 2^32 - 990 in
  let st := mkState STATUSTURNOFF false 0 0 marker admin_fob true true false factory_eeprom in
  (now - marker) mod 2^32 = 10
  /\ timed_out now marker runningStopTimeout = true
  /\ systemStatus (fst (timed_rules (quiet false false now) st)) = STATUSOFF
  /\ relayPin (fst (timed_rules (quiet false false now) st)) = RELAYOFF
  /\ (5 - (2^32 - 4000)) mod 2^32 = 4005
  /\ timed_out 5 (2^32 - 4000) runningStopTimeout = false.
Proof. vm_compute. repeat split; reflexivity. Qed.

(** ** The session state machine *)

(** C1, where the sketch departs from it.  After a login, a start and a
    stop of the machine, the admin fob presented with the admin button
    held during the grace time takes the state from [STATUSTURNOFF] to
    [STATUSADD] with the relay still on; releasing the button, or
    letting the enrollment window pass, then leads to [STATUSOFF]
    without any write to the relay pin. *)
Theorem off_with_relay_on :
  let boot := fst (setup normal_boot factory_eeprom) in
  let pending := fst (run enroll_during_grace boot) in
  let released := fst (run enroll_released boot) in
  let expired := fst (run enroll_expired boot) in
  (systemStatus boot = STATUSOFF /\ relayPin boot = RELAYOFF)
  /\ (systemStatus pending = STATUSADD /\ relayPin pending = RELAYON)
  /\ (systemStatus released = STATUSOFF /\ relayPin released = RELAYON)
  /\ (systemStatus expired = STATUSOFF /\ relayPin expired = RELAYON).
Proof. vm_compute. repeat split; reflexivity. Qed.

(** The two timed rules that end a session do switch the relay off. *)
Lemma timed_rules_session_end_relay_off (inp : inputs) (st : state) :
  systemStatus st = STATUSTURNOFF \/ systemStatus st = STATUSTURNON ->
  systemStatus (fst (timed_rules inp st)) = STATUSOFF ->
  relayPin (fst (timed_rules inp st)) = RELAYOFF.
Proof.
  intros Hs. destruct st as [s bam fpm rtm rgm afi rp lg lr e].
  cbn [systemStatus] in Hs. unfold timed_rules.
  cbn [systemStatus bootAdminMode fobPresentMilli runTimeMilli runningGraceMilli
       activeFobId].
  destruct Hs as [-> | ->]; cbn [status_eqb andb];
    repeat match goal with
           | |- context [if ?c then _ else _] => destruct c
           end;
    cbn; intros Hoff; (reflexivity || discriminate Hoff).
Qed.

(** The states passed on the way. *)
Example enroll_during_grace_statuses :
  let boot := fst (setup normal_boot factory_eeprom) in
  (fun n => systemStatus (fst (run (firstn n enroll_during_grace) boot))) <$> [1; 2; 3; 4]%nat
  = [STATUSTURNON; STATUSON; STATUSTURNOFF; STATUSADD].
Proof. vm_compute. reflexivity. Qed.

Lemma checkAdminTag_cases (fobId : Z) :
  ((checkAdminTag fobId =? statusAdmin) = true /\ (checkAdminTag fobId =? 0) = false)
  \/ ((checkAdminTag fobId =? statusAdmin) = false /\ (checkAdminTag fobId =? 0) = true).
Proof.
  unfold checkAdminTag, adminTagsList. cbn [checkAdminTag_from].
  change (0xb0009afb7f mod 2^32 =? 0) with false. change (0 =? 0) with true. cbn iota.
  destruct (fobId =? 0xb0009afb7f mod 2^32); [left|right]; split; reflexivity.
Qed.

(** C10.  On a factory-fresh EEPROM [checkAuthTag] returns 0xFF for the
    fob id 0xFFFFFFFF; whenever [checkAuthTag] returns a value other
    than 0 and the admin button is not held, the relay is switched on
    and, unless the machine was running, the state becomes
    [STATUSTURNON]; so the frame [00 ff ff ff ff 00] presented after a
    normal power-up opens a session. *)
Theorem factory_eeprom_authorizes_all_ones :
  checkAuthTag factory_eeprom 0xFFFFFFFF = 0xFF
  /\ (forall (st : state) (fobId now_del : Z),
        checkAuthTag (EEPROM st) fobId <> 0 ->
        let st1 := fst (present_fob (negb ADMINDOWN) now_del fobId st) in
        relayPin st1 = RELAYON
        /\ systemStatus st1
           = (if status_eqb (systemStatus st) STATUSON then STATUSON else STATUSTURNON))
  /\ (let r := run [swipe false false 1000 all_ones_frame]
                   (fst (setup normal_boot factory_eeprom)) in
      systemStatus (fst r) = STATUSTURNON
      /\ relayPin (fst r) = RELAYON
      /\ activeFobId (fst r) = 0xFFFFFFFF
      /\ snd r = [tone GOODBUZZTONE SHORTBUZZ; Serial_println "login" 0xFFFFFFFF 0]).
Proof.
  split; [vm_compute; reflexivity|]. split; [|vm_compute; repeat split; reflexivity].
  intros st fobId now_del Hauth st1. subst st1. unfold present_fob.
  change (eqb (negb ADMINDOWN) ADMINDOWN) with false. cbn [andb].
  destruct (Z.eqb_spec (checkAuthTag (EEPROM st) fobId) 0) as [Hz|_]; [contradiction|].
  cbn [negb orb].
  destruct st as [s bam fpm rtm rgm afi rp lg lr e].
  destruct s; cbn; split; reflexivity.
Qed.

Lemma factory_eeprom_authorizes_all_ones_witness :
  let st1 := fst (present_fob (negb ADMINDOWN) 1000 0xFFFFFFFF (power_on factory_eeprom)) in
  relayPin st1 = RELAYON
  /\ systemStatus st1
     = (if status_eqb (systemStatus (power_on factory_eeprom)) STATUSON
        then STATUSON else STATUSTURNON).
Proof.
  apply (proj1 (proj2 factory_eeprom_authorizes_all_ones)
           (power_on factory_eeprom) 0xFFFFFFFF 1000).
  vm_compute. discriminate.
Defined.

(** C6.  In [STATUSADD], with no free entry in the table, a fob that is
    neither an admin fob nor found by [checkAuthTag], presented with
    the admin button held: [addAuthTag] returns 0, the state becomes
    [STATUSDEL], the EEPROM is unchanged, and the line "added" is
    printed once all the same. *)
Theorem add_on_full_store (st : state) (fobId now_del : Z) :
  systemStatus st = STATUSADD ->
  store_full (EEPROM st) ->
  checkAdminTag fobId <> statusAdmin ->
  checkAuthTag (EEPROM st) fobId = 0 ->
  snd (addAuthTag (EEPROM st) fobId) = 0
  /\ exists st1 eff,
       present_fob ADMINDOWN now_del fobId st = (st1, eff)
       /\ systemStatus st1 = STATUSDEL
       /\ EEPROM st1 = EEPROM st
       /\ relayPin st1 = relayPin st
       /\ count_log "added" eff = 1%nat.
Proof.
  intros Hs Hfull Hadmin Hauth.
  pose proof (addAuthTag_full (EEPROM st) fobId Hfull) as Hadd.
  split; [rewrite Hadd; reflexivity|].
  unfold present_fob. rewrite Hs, Hauth, Hadd.
  destruct (Z.eqb_spec (checkAdminTag fobId) statusAdmin) as [Heq|_]; [contradiction|].
  eexists _, _. split; [reflexivity|]. repeat split.
Qed.

Lemma add_on_full_store_witness :
  let st := mkState STATUSADD false 0 0 0 admin_fob false true false (replicate eepLength 1) in
  snd (addAuthTag (EEPROM st) fobB) = 0
  /\ exists st1 eff,
       present_fob ADMINDOWN 4000 fobB st = (st1, eff)
       /\ systemStatus st1 = STATUSDEL
       /\ EEPROM st1 = EEPROM st
       /\ relayPin st1 = relayPin st
       /\ count_log "added" eff = 1%nat.
Proof.
  apply add_on_full_store.
  - reflexivity.
  - intros k Hk. unfold slot_status, EEPROM_read. cbn [EEPROM].
    rewrite lookup_replicate_2; [reflexivity|].
    unfold eepLength, slot_count in *. lia.
  - vm_compute. discriminate.
  - vm_compute. reflexivity.
Defined.

(** ** Repeated reads of one fob *)

Lemma same_session_refl (a : state) : same_session a a.
Proof. repeat split. Qed.

Lemma same_session_trans (a b c : state) :
  same_session a b -> same_session b c -> same_session a c.
Proof.
  intros (H1 & H2 & H3 & H4) (K1 & K2 & K3 & K4).
  repeat split; etransitivity; eassumption.
Qed.

(** Case analysis on the conditions of [present_fob] that remain in [H]
    once the status, the flags and the admin-list test are known. *)
Ltac split_in H :=
  repeat (match type of H with
          | context [if ?c then _ else _] =>
              match c with
              | context [?a =? ?b] => destruct (a =? b) eqn:?
              end
          | context [addAuthTag ?e ?f] => destruct (addAuthTag e f) eqn:?
          end; cbn [andb orb negb] in H).

Ltac absurd_bool :=
  match goal with
  | E : false = true |- _ => discriminate E
  | E : true = false |- _ => discriminate E
  end.

Ltac session_fields :=
  cbn [systemStatus bootAdminMode activeFobId EEPROM
       set_systemStatus set_bootAdminMode set_fobPresentMilli set_activeFobId
       set_relayPin set_leds set_EEPROM].

(** The table functions stay folded during the case analysis. *)
Opaque checkAuthTag addAuthTag clearAuthTags checkAdminTag.

(** A second read of the same fob, with the admin button at the same
    level, on any state of the same session as the one the first read
    left: nothing is printed, no tone is played, the session stays. *)
Lemma reread_silent (adminButton : bool) (fobId : Z) (st st1 st' : state)
      (now_del now_del' : Z) (eff1 : list effect) :
  present_fob adminButton now_del fobId st = (st1, eff1) ->
  same_session st1 st' ->
  snd (present_fob adminButton now_del' fobId st') = []
  /\ same_session st1 (fst (present_fob adminButton now_del' fobId st')).
Proof.
  intros Hfirst (Hs & Ha & Hb & He).
  destruct (present_fob adminButton now_del' fobId st') as [st2 eff2] eqn:Hsecond.
  cbn [fst snd].
  destruct st as [s bam fpm rtm rgm afi rp lg lr e].
  destruct st' as [s' bam' fpm' rtm' rgm' afi' rp' lg' lr' e'].
  unfold present_fob in *. cbn [systemStatus bootAdminMode activeFobId EEPROM] in *.
  destruct (checkAdminTag_cases fobId) as [[Hadm Hz]|[Hadm Hz]];
    rewrite Hadm, Hz in *; clear Hadm Hz;
    destruct adminButton, bam, s;
    cbn [eqb ADMINDOWN status_eqb andb orb negb] in Hfirst;
    split_in Hfirst;
    injection Hfirst as <- <-;
    revert Hs Ha Hb He; session_fields; intros <- <- <- <-;
    cbn [eqb ADMINDOWN status_eqb andb orb negb] in Hsecond;
    rewrite ?Z.eqb_refl in Hsecond; cbn [andb orb negb] in Hsecond;
    split_in Hsecond;
    try absurd_bool;
    injection Hsecond as <- <-;
    (split; [reflexivity|]); unfold same_session; session_fields;
    repeat split;
    try (symmetry; apply Z.eqb_eq; assumption).
Qed.

(** The first read of an admin fob with the admin button held, when it
    is a new presentation: one line is printed, "deleted" in boot-admin
    mode and "admin" otherwise, and the state is entered. *)
Lemma admin_first_read (fobId : Z) (st st1 : state) (now_del : Z) (eff1 : list effect) :
  present_fob ADMINDOWN now_del fobId st = (st1, eff1) ->
  checkAdminTag fobId = statusAdmin ->
  systemStatus st <> STATUSON -> systemStatus st <> STATUSTURNON ->
  (systemStatus st <> (if bootAdminMode st then STATUSDEL else STATUSADD)
   \/ activeFobId st <> fobId) ->
  count_log (if bootAdminMode st then "deleted" else "admin") eff1 = 1%nat
  /\ systemStatus st1 = (if bootAdminMode st then STATUSDEL else STATUSADD)
  /\ activeFobId st1 = fobId.
Proof.
  intros Hfirst Hadm Hon Hturnon Hnew.
  destruct st as [s bam fpm rtm rgm afi rp lg lr e].
  unfold present_fob in Hfirst.
  cbn [systemStatus bootAdminMode activeFobId EEPROM] in *.
  rewrite Hadm, Z.eqb_refl in Hfirst.
  destruct (afi =? fobId) eqn:Hafi;
    [apply Z.eqb_eq in Hafi|apply Z.eqb_neq in Hafi];
    destruct bam, s;
    try solve [exfalso; apply Hon; reflexivity | exfalso; apply Hturnon; reflexivity];
    try (exfalso; destruct Hnew as [Hnew|Hnew]; apply Hnew; (reflexivity || assumption));
    cbn [eqb ADMINDOWN status_eqb andb orb negb] in Hfirst;
    injection Hfirst as <- <-; repeat split.
Qed.

Ltac use_known_tests :=
  rewrite ?Z.eqb_refl;
  repeat match goal with
         | H : (?a =? ?b) = _ |- context [?a =? ?b] => rewrite H
         end;
  repeat match goal with
         | |- context [?a =? ?b] => destruct (a =? b) eqn:?
         end.

(** One read prints each of "admin", "deleted" and "denied" at most
    once, and only to enter a state in which it is not printed again. *)
Lemma read_fires_once (adminButton : bool) (fobId : Z) (st st1 : state)
      (now_del : Z) (eff1 : list effect) :
  present_fob adminButton now_del fobId st = (st1, eff1) ->
  fires_once (count_log "admin" eff1) (admin_settled fobId st) (admin_settled fobId st1)
  /\ fires_once (count_log "deleted" eff1) (erase_settled fobId st) (erase_settled fobId st1)
  /\ fires_once (count_log "denied" eff1) (denial_settled fobId st) (denial_settled fobId st1).
Proof.
  intros Hfirst.
  destruct st as [s bam fpm rtm rgm afi rp lg lr e].
  unfold present_fob in Hfirst. unfold admin_settled, erase_settled, denial_settled.
  cbn [systemStatus bootAdminMode activeFobId EEPROM] in *.
  destruct (checkAdminTag_cases fobId) as [[Hadm Hz]|[Hadm Hz]];
    rewrite Hadm, Hz in *; clear Hadm Hz;
    destruct adminButton, bam, s;
    cbn [eqb ADMINDOWN status_eqb andb orb negb] in Hfirst;
    split_in Hfirst;
    injection Hfirst as <- <-;
    session_fields;
    use_known_tests;
    unfold fires_once; cbn;
    repeat split;
    solve [ left; split; [reflexivity|intros Hpre; (reflexivity || discriminate Hpre)]
          | right; repeat split; reflexivity ].
Qed.

Transparent checkAuthTag addAuthTag clearAuthTags checkAdminTag.

Lemma count_log_app (name : string) (a b : list effect) :
  count_log name (a ++ b) = (count_log name a + count_log name b)%nat.
Proof.
  induction a as [|x a IH]; [reflexivity|].
  cbn [app count_log]. rewrite IH. lia.
Qed.

Lemma admin_settled_same_session (fobId : Z) (a b : state) :
  same_session a b -> admin_settled fobId a = admin_settled fobId b.
Proof. intros (Hs & Ha & Hb & He). unfold admin_settled. rewrite Hs, Ha, Hb. reflexivity. Qed.

Lemma erase_settled_same_session (fobId : Z) (a b : state) :
  same_session a b -> erase_settled fobId a = erase_settled fobId b.
Proof. intros (Hs & Ha & Hb & He). unfold erase_settled. rewrite Hs, Ha, Hb. reflexivity. Qed.

Lemma denial_settled_same_session (fobId : Z) (a b : state) :
  same_session a b -> denial_settled fobId a = denial_settled fobId b.
Proof. intros (Hs & Ha & Hb & He). unfold denial_settled. rewrite Hs, He. reflexivity. Qed.

Section AtMostOnce.

Variable fobId : Z.
Variable name : string.
Variable settled : Z -> state -> bool.

Hypothesis settled_same_session :
  forall a b, same_session a b -> settled fobId a = settled fobId b.

Hypothesis settled_step :
  forall adminButton now_del st st1 eff1,
    present_fob adminButton now_del fobId st = (st1, eff1) ->
    fires_once (count_log name eff1) (settled fobId st) (settled fobId st1).

(** Over any run of reads a line that fires once per settling is
    printed at most once, and not at all from a settled state. *)
Lemma reads_at_most_once (st st2 : state) (effs : list effect) :
  reads fobId st effs st2 ->
  (count_log name effs <= 1)%nat
  /\ (settled fobId st = true -> count_log name effs = 0%nat).
Proof.
  induction 1 as [st|st st' adminButton now_del st1 eff1 st2 eff2 Hsame Hread Hrest IH].
  - split; [cbn; lia|reflexivity].
  - rewrite count_log_app, (settled_same_session st st' Hsame).
    destruct IH as [IHle IHzero].
    destruct (settled_step adminButton now_del st' st1 eff1 Hread)
      as [[Hnone Hkeep]|(Hone & Hbefore & Hafter)].
    + rewrite Hnone. split; [lia|]. intros Hpre. rewrite (IHzero (Hkeep Hpre)). lia.
    + rewrite Hone, (IHzero Hafter), Hbefore. split; [lia|discriminate].
Qed.

End AtMostOnce.

Lemma rereads_silent (adminButton : bool) (fobId : Z) (st1 st2 : state)
      (effs : list effect) :
  rereads adminButton fobId st1 effs st2 ->
  forall st now_del eff1,
    present_fob adminButton now_del fobId st = (st1, eff1) ->
    effs = [] /\ same_session st1 st2.
Proof.
  induction 1 as [st1|st1 st' now_del' st1' eff1' st2 eff2 Hsame Hread Hrest IH];
    intros st now_del eff1 Hfirst.
  - split; [reflexivity|apply same_session_refl].
  - destruct (reread_silent adminButton fobId st st1 st' now_del now_del' eff1
                Hfirst Hsame) as [Heff Hkeep].
    rewrite Hread in Heff, Hkeep. cbn [fst snd] in Heff, Hkeep. subst eff1'.
    destruct (IH st' now_del' [] Hread) as [-> Hrest_same].
    split; [reflexivity|]. eapply same_session_trans; eassumption.
Qed.

(** C5.  Over any run of reads of one fob, whatever the level of the
    admin button at each read and as long as the session (status,
    active fob, boot-admin flag, EEPROM) is left alone between the
    reads, each of the lines "deleted", "admin" and "denied" is printed
    at most once.  After a first read, further reads with the admin
    button at the same level print nothing, play no tone and keep the
    session.  In particular a new presentation of an admin fob with the
    button held prints exactly one "admin" line (one "deleted" line in
    boot-admin mode) over the whole run of reads, and the run ends in
    the state entered by the first read. *)
Theorem rereads_fire_once (fobId : Z) :
  (forall st effs st2,
     reads fobId st effs st2 ->
     (count_log "deleted" effs <= 1)%nat
     /\ (count_log "admin" effs <= 1)%nat
     /\ (count_log "denied" effs <= 1)%nat)
  /\ (forall adminButton st st1 st2 now_del eff1 effs,
        present_fob adminButton now_del fobId st = (st1, eff1) ->
        rereads adminButton fobId st1 effs st2 ->
        effs = []
        /\ same_session st1 st2
        /\ (adminButton = ADMINDOWN ->
            checkAdminTag fobId = statusAdmin ->
            systemStatus st <> STATUSON -> systemStatus st <> STATUSTURNON ->
            (systemStatus st <> (if bootAdminMode st then STATUSDEL else STATUSADD)
             \/ activeFobId st <> fobId) ->
            count_log (if bootAdminMode st then "deleted" else "admin") (eff1 ++ effs)
            = 1%nat
            /\ systemStatus st2 = (if bootAdminMode st then STATUSDEL else STATUSADD)
            /\ activeFobId st2 = fobId)).
Proof.
  split.
  - intros st effs st2 Hreads. repeat split.
    + apply (reads_at_most_once fobId "deleted" erase_settled
               (erase_settled_same_session fobId)
               (fun b n s s1 e1 H => proj1 (proj2 (read_fires_once b fobId s s1 n e1 H)))
               st st2 effs Hreads).
    + apply (reads_at_most_once fobId "admin" admin_settled
               (admin_settled_same_session fobId)
               (fun b n s s1 e1 H => proj1 (read_fires_once b fobId s s1 n e1 H))
               st st2 effs Hreads).
    + apply (reads_at_most_once fobId "denied" denial_settled
               (denial_settled_same_session fobId)
               (fun b n s s1 e1 H => proj2 (proj2 (read_fires_once b fobId s s1 n e1 H)))
               st st2 effs Hreads).
  - intros adminButton st st1 st2 now_del eff1 effs Hfirst Hre.
    destruct (rereads_silent adminButton fobId st1 st2 effs Hre st now_del eff1 Hfirst)
      as [-> Hsame].
    split; [reflexivity|]. split; [exact Hsame|].
    intros -> Hadm Hon Hturnon Hnew.
    destruct (admin_first_read fobId st st1 now_del eff1 Hfirst Hadm Hon Hturnon Hnew)
      as (Hcount & Hstatus & Hactive).
    destruct Hsame as (Hs & Ha & _ & _).
    rewrite app_nil_r. split; [exact Hcount|]. split; congruence.
Qed.

(** An admin fob read with the button held, read again 200 ms later,
    then read with the button released. *)
Lemma rereads_fire_once_witness :
  let st := fst (setup normal_boot factory_eeprom) in
  let r1 := present_fob ADMINDOWN 1000 admin_fob st in
  let r2 := present_fob ADMINDOWN 1200 admin_fob (set_fobPresentMilli 1200 (fst r1)) in
  let r3 := present_fob (negb ADMINDOWN) 1400 admin_fob (fst r2) in
  (snd r2 ++ [] = []
   /\ same_session (fst r1) (fst r2)
   /\ count_log "admin" (snd r1 ++ (snd r2 ++ [])) = 1%nat
   /\ systemStatus (fst r2) = STATUSADD
   /\ activeFobId (fst r2) = admin_fob)
  /\ (count_log "admin" (snd r1 ++ snd r2 ++ snd r3 ++ []) <= 1)%nat.
Proof.
  intros st r1 r2 r3.
  destruct (rereads_fire_once admin_fob) as [Hany Hsame_level].
  assert (Hfirst : present_fob ADMINDOWN 1000 admin_fob st = (fst r1, snd r1))
    by apply surjective_pairing.
  assert (Hre : rereads ADMINDOWN admin_fob (fst r1) (snd r2 ++ []) (fst r2)).
  { apply (rereads_more _ _ (fst r1) (set_fobPresentMilli 1200 (fst r1)) 1200
             (fst r2) (snd r2) (fst r2) []).
    - repeat split.
    - apply surjective_pairing.
    - apply rereads_done. }
  assert (Hreads : reads admin_fob st (snd r1 ++ snd r2 ++ snd r3 ++ []) (fst r3)).
  { apply (reads_more _ st st ADMINDOWN 1000 (fst r1) (snd r1) (fst r3));
      [apply same_session_refl|apply surjective_pairing|].
    apply (reads_more _ (fst r1) (set_fobPresentMilli 1200 (fst r1)) ADMINDOWN 1200
             (fst r2) (snd r2) (fst r3));
      [repeat split|apply surjective_pairing|].
    apply (reads_more _ (fst r2) (fst r2) (negb ADMINDOWN) 1400 (fst r3) (snd r3) (fst r3));
      [apply same_session_refl|apply surjective_pairing|apply reads_done]. }
  split.
  - destruct (Hsame_level ADMINDOWN st (fst r1) (fst r2) 1000 (snd r1) (snd r2 ++ [])
                Hfirst Hre) as (Hnone & Hsame & Hadmin).
    split; [exact Hnone|]. split; [exact Hsame|].
    apply Hadmin.
    + reflexivity.
    + vm_compute. reflexivity.
    + vm_compute. discriminate.
    + vm_compute. discriminate.
    + left. vm_compute. discriminate.
  - apply (Hany st _ (fst r3) Hreads).
Defined.

(** * Further properties of the sketch *)

(** ** Bit reversal and fob id assembly *)

Lemma land_bit (a i : Z) :
  0 <= i -> (Z.land a (Z.shiftl 1 i) =? 0) = negb (Z.testbit a i).
Proof.
  intros Hi. rewrite Z.shiftl_1_l.
  destruct (Z.testbit a i) eqn:Hb; cbn [negb].
  - apply Z.eqb_neq. intros H0.
    assert (Hbit : Z.testbit (Z.land a (2 ^ i)) i = true)
      by (rewrite Z.land_spec, Hb, Z.pow2_bits_true by exact Hi; reflexivity).
    rewrite H0, Z.bits_0 in Hbit. discriminate Hbit.
  - apply Z.eqb_eq, Z.bits_inj'. intros n Hn.
    rewrite Z.land_spec, Z.bits_0, Z.pow2_bits_eqb by exact Hi.
    destruct (Z.eqb_spec i n) as [->|_]; [rewrite Hb|rewrite andb_false_r]; reflexivity.
Qed.

(** The loop over the 8 bits of a received value yields a byte whose bit
    [i] is bit [7 - i] of the value; bits 8 and up of the value play no
    part; on a byte, reversing twice gives the byte back. *)
Theorem reverse_bits_mirrors (val : Z) :
  0 <= reverse_bits val < 256
  /\ (forall i, 0 <= i < 8 -> Z.testbit (reverse_bits val) i = Z.testbit val (7 - i))
  /\ (0 <= val < 256 -> reverse_bits (reverse_bits val) = val).
Proof.
  split; [apply reverse_bits_byte|]. split; [|apply reverse_bits_involutive].
  intros i Hi. unfold reverse_bits.
  change (map Z.of_nat (seq 0 8)) with [0; 1; 2; 3; 4; 5; 6; 7]. cbn [fold_left].
  rewrite !land_bit by lia.
  assert (Hcases : i = 0 \/ i = 1 \/ i = 2 \/ i = 3 \/ i = 4 \/ i = 5 \/ i = 6 \/ i = 7)
    by lia.
  change (7 - 0) with 7. change (7 - 1) with 6. change (7 - 2) with 5.
  change (7 - 3) with 4. change (7 - 4) with 3. change (7 - 5) with 2.
  change (7 - 6) with 1. change (7 - 7) with 0.
  destruct Hcases as [->|[->|[->|[->|[->|[->|[->| ->]]]]]]];
    match goal with
    | |- _ = Z.testbit val ?k =>
        let k' := eval vm_compute in k in change k with k'
    end;
    destruct (Z.testbit val 0), (Z.testbit val 1), (Z.testbit val 2),
      (Z.testbit val 3), (Z.testbit val 4), (Z.testbit val 5),
      (Z.testbit val 6), (Z.testbit val 7);
    vm_compute; reflexivity.
Qed.

Lemma reverse_bits_mirrors_witness :
  Z.testbit (reverse_bits 0x0D) 4 = Z.testbit 0x0D (7 - 4)
  /\ reverse_bits (reverse_bits 0x0D) = 0x0D.
Proof.
  destruct (reverse_bits_mirrors 0x0D) as (_ & Hbits & Hinv).
  split; [apply Hbits|apply Hinv]; lia.
Defined.

(** The fob id is made of the payload bytes 1 to 4, most significant
    first; bytes 0 and 5 of the payload are not part of it. *)
Theorem assemble_fobId_bytes (b0 b1 b2 b3 b4 b5 : Z) :
  0 <= b1 < 256 -> 0 <= b2 < 256 -> 0 <= b3 < 256 -> 0 <= b4 < 256 ->
  assemble_fobId [b0; b1; b2; b3; b4; b5] = b1 * 2^24 + b2 * 2^16 + b3 * 2^8 + b4
  /\ 0 <= assemble_fobId [b0; b1; b2; b3; b4; b5] < 2^32.
Proof.
  intros H1 H2 H3 H4.
  assert (Heq : assemble_fobId [b0; b1; b2; b3; b4; b5]
                = b1 * 2^24 + b2 * 2^16 + b3 * 2^8 + b4).
  { unfold assemble_fobId. cbn [seq fold_left].
    change ([b0; b1; b2; b3; b4; b5] !! (1 + 0)%nat) with (Some b1).
    change ([b0; b1; b2; b3; b4; b5] !! (1 + 1)%nat) with (Some b2).
    change ([b0; b1; b2; b3; b4; b5] !! (1 + 2)%nat) with (Some b3).
    change ([b0; b1; b2; b3; b4; b5] !! (1 + 3)%nat) with (Some b4).
    cbn [default from_option id].
    rewrite !Z.shiftl_mul_pow2 by lia.
    change (2^8) with 256. change (2^16) with 65536. change (2^24) with 16777216.
    change (2^32) with 4294967296.
    Z.div_mod_to_equations. lia. }
  split; [exact Heq|]. rewrite Heq. lia.
Qed.

Lemma assemble_fobId_bytes_witness :
  assemble_fobId [0xb0; 0x00; 0x9a; 0xfb; 0x7f; 0xae]
  = 0x00 * 2^24 + 0x9a * 2^16 + 0xfb * 2^8 + 0x7f
  /\ 0 <= assemble_fobId [0xb0; 0x00; 0x9a; 0xfb; 0x7f; 0xae] < 2^32.
Proof. apply assemble_fobId_bytes; lia. Defined.

(** ** Incomplete and overlong frames *)

Lemma rx_packet_length (vals : list Z) : forall n,
  length (rx_packet vals n) = Nat.min (length vals) (6 - n).
Proof.
  induction vals as [|v vals IH]; intros n; cbn [rx_packet length]; [reflexivity|].
  destruct (Nat.ltb_spec n 6); cbn [length]; [rewrite IH|]; lia.
Qed.

Lemma rx_packet_app (vals more : list Z) : forall n,
  (6 <= n + length vals)%nat -> rx_packet (vals ++ more) n = rx_packet vals n.
Proof.
  induction vals as [|v vals IH]; intros n Hn; cbn [rx_packet length app] in *.
  - destruct more as [|m more]; [reflexivity|]. cbn [rx_packet].
    destruct (Nat.ltb_spec n 6); [lia|reflexivity].
  - destruct (Nat.ltb_spec n 6); [|reflexivity]. f_equal. apply IH. lia.
Qed.

(** A first byte other than 0x02, or fewer than six values before the
    data runs out, makes [loop()] return without a fob id; values after
    the sixth are left unread and do not change the result. *)
Theorem rfid_receive_framing (start : Z) (vals more : list Z) :
  (start <> 0x02 -> rfid_receive (Some (start, vals)) = None)
  /\ ((length vals < 6)%nat -> rfid_receive (Some (start, vals)) = None)
  /\ (length vals = 6%nat ->
      rfid_receive (Some (start, vals ++ more)) = rfid_receive (Some (start, vals))).
Proof.
  unfold rfid_receive. split; [|split].
  - intros Hne. destruct (Z.eqb_spec start 0x02); [contradiction|reflexivity].
  - intros Hlen. destruct (negb (start =? 0x02)); [reflexivity|].
    unfold check_packet. rewrite rx_packet_length.
    destruct (Nat.eqb_spec (Nat.min (length vals) (6 - 0)) 6) as [Heq|_]; [lia|reflexivity].
  - intros Hlen. rewrite rx_packet_app by lia. reflexivity.
Qed.

Lemma rfid_receive_framing_witness :
  rfid_receive (Some (0x03, [0x0D; 0x00; 0x59; 0xDF; 0xFE; 0x75])) = None
  /\ rfid_receive (Some (0x02, [0x0D; 0x00; 0x59; 0xDF; 0xFE])) = None
  /\ rfid_receive (Some (0x02, [0x0D; 0x00; 0x59; 0xDF; 0xFE; 0x75] ++ [0x11; 0x22]))
     = rfid_receive (Some (0x02, [0x0D; 0x00; 0x59; 0xDF; 0xFE; 0x75])).
Proof.
  split; [|split].
  - apply (proj1 (rfid_receive_framing 0x03 [0x0D; 0x00; 0x59; 0xDF; 0xFE; 0x75] [])).
    discriminate.
  - apply (proj1 (proj2 (rfid_receive_framing 0x02 [0x0D; 0x00; 0x59; 0xDF; 0xFE] []))).
    cbn [length]. lia.
  - apply (proj2 (proj2 (rfid_receive_framing 0x02 [0x0D; 0x00; 0x59; 0xDF; 0xFE; 0x75]
                           [0x11; 0x22]))).
    reflexivity.
Defined.

(** ** The admin list *)

(** The scan of the admin list stops at the first 0 entry: the fob id 0
    is never an admin fob, and entries behind the 0 are never looked
    at.  With the list of the sketch the only admin fob is 0x009AFB7F,
    the low 32 bits of the initialiser 0xb0009afb7f. *)
Theorem checkAdminTag_listed_only :
  (forall l, checkAdminTag_from l 0 = 0)
  /\ (forall pre post fobId,
        checkAdminTag_from (pre ++ 0 :: post) fobId = checkAdminTag_from (pre ++ [0]) fobId)
  /\ (forall fobId,
        checkAdminTag fobId = if fobId =? 0x009afb7f then statusAdmin else 0).
Proof.
  split; [|split].
  - induction l as [|t l IH]; cbn [checkAdminTag_from]; [reflexivity|].
    destruct (Z.eqb_spec t 0) as [_|Hne]; [reflexivity|].
    destruct (Z.eqb_spec 0 t) as [Heq|_]; [congruence|exact IH].
  - induction pre as [|t pre IH]; intros post fobId; cbn [app checkAdminTag_from].
    + reflexivity.
    + rewrite IH. reflexivity.
  - intros fobId. unfold checkAdminTag, adminTagsList. cbn [checkAdminTag_from].
    change (0xb0009afb7f mod 2^32) with 0x009afb7f.
    change (0x009afb7f =? 0) with false. change (0 =? 0) with true. cbn iota.
    reflexivity.
Qed.

(** ** Composition of the table functions *)

Lemma last_true (p : nat -> bool) (n : nat) :
  (forall k, (k < n)%nat -> p k = false)
  \/ (exists k, (k < n)%nat /\ p k = true /\ forall j, (k < j < n)%nat -> p j = false).
Proof.
  induction n as [|n IH].
  - left. intros k Hk. lia.
  - destruct (p n) eqn:Hn.
    + right. exists n. repeat split; [lia|exact Hn|]. intros j Hj. lia.
    + destruct IH as [IH|(k & Hk & Hp & Hlast)].
      * left. intros k Hk. destruct (decide (k = n)) as [->|Hne]; [exact Hn|].
        apply IH. lia.
      * right. exists k. repeat split; [lia|exact Hp|].
        intros j Hj. destruct (decide (j = n)) as [->|Hne]; [exact Hn|].
        apply Hlast. lia.
Qed.

(** The entry written by [addAuthTag] is the only one that changes. *)
Lemma write_entry_other_slot (e : list Z) (fobId : Z) (k j : nat) :
  j <> k ->
  slot_id (write_entry e (5 * k) fobId) j = slot_id e j
  /\ slot_status (write_entry e (5 * k) fobId) j = slot_status e j.
Proof.
  intros Hne. unfold slot_id, slot_status, read_entryId. cbn [seq fold_left].
  unfold EEPROM_read. rewrite !write_entry_lookup_other by lia. split; reflexivity.
Qed.

Lemma checkAuthTag_scan_result_cases (e : list Z) (fobId : Z) :
  ((forall k, (k < slot_count)%nat -> slot_id e k <> fobId) /\ checkAuthTag e fobId = 0)
  \/ (exists k,
        (k < slot_count)%nat
        /\ slot_id e k = fobId
        /\ (forall j, (k < j < slot_count)%nat -> slot_id e j <> fobId)
        /\ checkAuthTag e fobId = slot_status e k).
Proof.
  destruct (last_true (fun k => slot_id e k =? fobId) slot_count)
    as [Hnone|(k & Hk & Hp & Hlast)].
  - left.
    assert (Hno : forall k, (k < slot_count)%nat -> slot_id e k <> fobId)
      by (intros k Hk; apply Z.eqb_neq, Hnone; exact Hk).
    split; [exact Hno|]. apply checkAuthTag_no_match. exact Hno.
  - right. exists k. apply Z.eqb_eq in Hp.
    assert (Hlater : forall j, (k < j < slot_count)%nat -> slot_id e j <> fobId)
      by (intros j Hj; apply Z.eqb_neq, Hlast; exact Hj).
    repeat split; try assumption. apply checkAuthTag_last_match; assumption.
Qed.

(** [checkAuthTag], as the scan computes it: 0 when no entry carries
    the id, and otherwise the status byte of the last entry that
    carries it, whether that entry is in use or not; so the value
    returned is 0 or a status byte stored with that id. *)
Theorem checkAuthTag_scan_result (e : list Z) (fobId : Z) :
  (((forall k, (k < slot_count)%nat -> slot_id e k <> fobId) /\ checkAuthTag e fobId = 0)
   \/ (exists k,
         (k < slot_count)%nat
         /\ slot_id e k = fobId
         /\ (forall j, (k < j < slot_count)%nat -> slot_id e j <> fobId)
         /\ checkAuthTag e fobId = slot_status e k))
  /\ (checkAuthTag e fobId = 0
      \/ exists k, (k < slot_count)%nat /\ slot_id e k = fobId
                   /\ slot_status e k = checkAuthTag e fobId).
Proof.
  split; [apply checkAuthTag_scan_result_cases|].
  destruct (checkAuthTag_scan_result_cases e fobId)
    as [[_ Hzero]|(k & Hk & Hid & _ & Hres)].
  - left. exact Hzero.
  - right. exists k. repeat split; [exact Hk|exact Hid|symmetry; exact Hres].
Qed.

(** A fob id that no entry carries, added to a table with a free
    entry: [addAuthTag] returns [statusAuthorized] and [checkAuthTag]
    then finds the fob as authorized. *)
Theorem addAuthTag_then_checkAuthTag (e : list Z) (fobId : Z) (k0 : nat) :
  length e = eepLength -> 0 <= fobId < 2^32 ->
  (k0 < slot_count)%nat -> entry_free (slot_status e k0) = true ->
  (forall k, (k < slot_count)%nat -> slot_id e k <> fobId) ->
  snd (addAuthTag e fobId) = statusAuthorized
  /\ checkAuthTag (fst (addAuthTag e fobId)) fobId = statusAuthorized.
Proof.
  intros Hlen Hf Hk0 Hfree0 Hnew.
  destruct (first_true (fun k => entry_free (slot_status e k)) slot_count)
    as [Hfull|(k & Hk & Hfree & Hmin)].
  - rewrite (Hfull k0 Hk0) in Hfree0. discriminate Hfree0.
  - split.
    + rewrite (addAuthTag_at_first_free e fobId k Hk Hfree Hmin). reflexivity.
    + apply (checkAuthTag_addAuthTag_fresh e fobId k); try assumption.
      intros j Hj. apply Hnew. lia.
Qed.

Lemma addAuthTag_then_checkAuthTag_witness :
  snd (addAuthTag (replicate eepLength 0) fobA) = statusAuthorized
  /\ checkAuthTag (fst (addAuthTag (replicate eepLength 0) fobA)) fobA = statusAuthorized.
Proof.
  assert (Hread : forall a, (a < eepLength)%nat ->
                    EEPROM_read (replicate eepLength 0) a = 0).
  { intros a Ha. unfold EEPROM_read. rewrite lookup_replicate_2 by exact Ha. reflexivity. }
  apply (addAuthTag_then_checkAuthTag (replicate eepLength 0) fobA 0).
  - reflexivity.
  - unfold fobA. lia.
  - unfold slot_count. lia.
  - reflexivity.
  - intros k Hk. unfold slot_id, read_entryId. cbn [seq fold_left].
    rewrite !Hread by (unfold eepLength, slot_count in *; lia).
    vm_compute. discriminate.
Defined.

(** Adding a fob does not change what [checkAuthTag] returns for
    another fob that is found with a status in use (neither 0x00 nor
    0xFF). *)
Theorem addAuthTag_keeps_other_fobs (e : list Z) (fobId other : Z) :
  length e = eepLength -> 0 <= fobId < 2^32 ->
  other <> fobId ->
  entry_free (checkAuthTag e other) = false ->
  checkAuthTag (fst (addAuthTag e fobId)) other = checkAuthTag e other.
Proof.
  intros Hlen Hf Hne Hused.
  destruct (checkAuthTag_scan_result_cases e other) as [[_ Hzero]|(j & Hj & Hid & Hlast & Hres)].
  - rewrite Hzero in Hused. discriminate Hused.
  - destruct (first_true (fun k => entry_free (slot_status e k)) slot_count)
      as [Hfull|(k & Hk & Hfree & Hmin)].
    + rewrite (addAuthTag_full e fobId Hfull). reflexivity.
    + rewrite (addAuthTag_at_first_free e fobId k Hk Hfree Hmin). cbn [fst].
      assert (Hjk : j <> k) by (intros ->; rewrite <- Hres, Hused in Hfree; discriminate Hfree).
      destruct (write_entry_other_slot e fobId k j Hjk) as [Hid' Hst'].
      rewrite Hres, <- Hst'. apply checkAuthTag_last_match; [exact Hj|congruence|].
      intros j' Hj'. destruct (decide (j' = k)) as [->|Hj'k].
      * unfold slot_id. rewrite write_entry_id; [congruence| |exact Hf].
        rewrite Hlen. unfold eepLength, slot_count in *. lia.
      * rewrite (proj1 (write_entry_other_slot e fobId k j' Hj'k)). apply Hlast. exact Hj'.
Qed.

Lemma addAuthTag_keeps_other_fobs_witness :
  checkAuthTag (fst (addAuthTag (fst (addAuthTag factory_eeprom fobA)) fobB)) fobA
  = checkAuthTag (fst (addAuthTag factory_eeprom fobA)) fobA.
Proof.
  apply addAuthTag_keeps_other_fobs.
  - reflexivity.
  - unfold fobB. lia.
  - discriminate.
  - vm_compute. reflexivity.
Defined.

(** ** Capacity and bounds of the table *)

Lemma filled_to_clearAuthTags (e : list Z) :
  length e = eepLength -> filled_to 0 (clearAuthTags e).
Proof.
  intros Hlen k Hk. cbn [Nat.ltb Nat.leb]. apply clearAuthTags_status; assumption.
Qed.

Lemma filled_to_addAuthTag (j : nat) (e : list Z) (fobId : Z) :
  length e = eepLength -> filled_to j e -> (j < slot_count)%nat ->
  addAuthTag e fobId = (write_entry e (5 * j) fobId, statusAuthorized)
  /\ filled_to (S j) (write_entry e (5 * j) fobId).
Proof.
  intros Hlen Hfill Hj. split.
  - apply addAuthTag_at_first_free; [exact Hj| |].
    + rewrite (Hfill j Hj). rewrite Nat.ltb_irrefl. reflexivity.
    + intros i Hi. rewrite (Hfill i) by lia.
      destruct (Nat.ltb_spec i j); [reflexivity|lia].
  - intros k Hk. destruct (decide (k = j)) as [->|Hne].
    + unfold slot_status. rewrite write_entry_status
        by (rewrite Hlen; unfold eepLength, slot_count in *; lia).
      destruct (Nat.ltb_spec j (S j)); [reflexivity|lia].
    + rewrite (proj2 (write_entry_other_slot e fobId j k Hne)), (Hfill k Hk).
      destruct (Nat.ltb_spec k j), (Nat.ltb_spec k (S j)); (reflexivity || lia).
Qed.

Lemma filled_to_full (e : list Z) (fobId : Z) :
  filled_to slot_count e -> addAuthTag e fobId = (e, 0).
Proof.
  intros Hfill. apply addAuthTag_full. intros k Hk. rewrite (Hfill k Hk).
  destruct (Nat.ltb_spec k slot_count); [reflexivity|lia].
Qed.

Lemma addAuthTags_filled (fobIds : list Z) : forall j e,
  length e = eepLength -> filled_to j e -> (j <= slot_count)%nat ->
  snd (addAuthTags e fobIds)
  = replicate (Nat.min (length fobIds) (slot_count - j)) statusAuthorized
      ++ replicate (length fobIds - (slot_count - j)) 0.
Proof.
  induction fobIds as [|f rest IH]; intros j e Hlen Hfill Hj; [reflexivity|].
  cbn [addAuthTags length].
  destruct (decide (j = slot_count)) as [->|Hne].
  - rewrite (filled_to_full e f Hfill).
    specialize (IH slot_count e Hlen Hfill Hj).
    destruct (addAuthTags e rest) as [e2 results]. cbn [snd] in *. rewrite IH.
    replace (slot_count - slot_count)%nat with 0%nat by lia.
    rewrite !Nat.min_0_r, !Nat.sub_0_r. reflexivity.
  - assert (Hlt : (j < slot_count)%nat) by lia.
    destruct (filled_to_addAuthTag j e f Hlen Hfill Hlt) as [-> Hnext].
    assert (Hlen' : length (write_entry e (5 * j) f) = eepLength)
      by (rewrite write_entry_length; exact Hlen).
    specialize (IH (S j) _ Hlen' Hnext Hlt).
    destruct (addAuthTags (write_entry e (5 * j) f) rest) as [e2 results].
    cbn [snd] in *. rewrite IH.
    replace (slot_count - j)%nat with (S (slot_count - S j)) by lia.
    cbn [Nat.min Nat.sub replicate app]. reflexivity.
Qed.

(** Starting from an erased table, the first 204 calls of [addAuthTag]
    return [statusAuthorized] and every later call returns 0, whatever
    the fob ids are. *)
Theorem addAuthTags_capacity (e : list Z) (fobIds : list Z) :
  length e = eepLength ->
  snd (addAuthTags (clearAuthTags e) fobIds)
  = replicate (Nat.min (length fobIds) slot_count) statusAuthorized
      ++ replicate (length fobIds - slot_count) 0.
Proof.
  intros Hlen.
  rewrite (addAuthTags_filled fobIds 0 (clearAuthTags e)).
  - rewrite Nat.sub_0_r. reflexivity.
  - rewrite clearAuthTags_length. exact Hlen.
  - apply filled_to_clearAuthTags. exact Hlen.
  - lia.
Qed.

Lemma addAuthTags_capacity_witness :
  snd (addAuthTags (clearAuthTags factory_eeprom) (replicate 205 fobA))
  = replicate (Nat.min (length (replicate 205 fobA)) slot_count) statusAuthorized
      ++ replicate (length (replicate 205 fobA) - slot_count) 0.
Proof. apply addAuthTags_capacity. reflexivity. Defined.

Lemma checkAuthTag_fold_ext (addrs : list nat) (e e' : list Z) (fobId : Z) :
  (forall x i, x ∈ addrs -> (i < 5)%nat -> e !! (x + i)%nat = e' !! (x + i)%nat) ->
  forall acc,
    fold_left (checkAuthTag_step e fobId) addrs acc
    = fold_left (checkAuthTag_step e' fobId) addrs acc.
Proof.
  induction addrs as [|x xs IH]; intros Hsame acc; cbn [fold_left]; [reflexivity|].
  rewrite IH by (intros y i Hy Hi; apply Hsame; [right; exact Hy|exact Hi]).
  f_equal. unfold checkAuthTag_step, read_entryId. cbn [seq fold_left].
  unfold EEPROM_read. rewrite !(Hsame x) by (left || lia). reflexivity.
Qed.

(** The table occupies the bytes 0 to 1019: [clearAuthTags] and
    [addAuthTag] keep the length of the EEPROM and every byte from 1020
    on, and [checkAuthTag] does not depend on those bytes. *)
Theorem table_ends_at_1020 (e : list Z) (fobId : Z) :
  length (clearAuthTags e) = length e
  /\ length (fst (addAuthTag e fobId)) = length e
  /\ (forall a, (1020 <= a)%nat ->
        clearAuthTags e !! a = e !! a
        /\ fst (addAuthTag e fobId) !! a = e !! a)
  /\ (forall e', (forall a, (a < 1020)%nat -> e' !! a = e !! a) ->
        checkAuthTag e' fobId = checkAuthTag e fobId).
Proof.
  assert (Hadd : fst (addAuthTag e fobId) = e
                 \/ exists k, (k < slot_count)%nat
                              /\ fst (addAuthTag e fobId) = write_entry e (5 * k) fobId).
  { destruct (first_true (fun k => entry_free (slot_status e k)) slot_count)
      as [Hfull|(k & Hk & Hfree & Hmin)].
    - left. rewrite (addAuthTag_full e fobId Hfull). reflexivity.
    - right. exists k. split; [exact Hk|].
      rewrite (addAuthTag_at_first_free e fobId k Hk Hfree Hmin). reflexivity. }
  split; [apply clearAuthTags_length|]. split; [|split].
  - destruct Hadd as [->|(k & _ & ->)]; [reflexivity|apply write_entry_length].
  - intros a Ha. split.
    + unfold clearAuthTags. apply clear_over_lookup_other.
      intros x Hx. apply elem_of_slot_addrs in Hx as (k & Hk & ->).
      unfold slot_count in Hk. lia.
    + destruct Hadd as [->|(k & Hk & ->)]; [reflexivity|].
      apply write_entry_lookup_other. unfold slot_count in Hk. lia.
  - intros e' Hsame. unfold checkAuthTag.
    apply (checkAuthTag_fold_ext slot_addrs e' e fobId).
    intros x i Hx Hi. apply elem_of_slot_addrs in Hx as (k & Hk & ->).
    apply Hsame. unfold slot_count in Hk. lia.
Qed.

Lemma table_ends_at_1020_witness :
  (clearAuthTags factory_eeprom !! 1021%nat = factory_eeprom !! 1021%nat
   /\ fst (addAuthTag factory_eeprom fobA) !! 1021%nat = factory_eeprom !! 1021%nat)
  /\ checkAuthTag (<[1022%nat := 0]> factory_eeprom) fobA = checkAuthTag factory_eeprom fobA.
Proof.
  destruct (table_ends_at_1020 factory_eeprom fobA) as (_ & _ & Htail & Hlookup).
  split; [apply Htail; lia|].
  apply Hlookup. intros a Ha. apply list_lookup_insert_ne. lia.
Defined.

(** ** Power-up *)

(** With [keepRunningOnPowerup = 0], [setup()] always leaves the sketch
    in [STATUSOFF] with the relay and both LEDs off, whatever the
    running pins read; boot-admin mode is on exactly when the admin
    button is held; the EEPROM is not touched; the log gets "boot" and,
    in boot-admin mode, "bootadmin". *)
Theorem setup_ends_off (b : boot_inputs) (e : list Z) :
  let st := fst (setup b e) in
  systemStatus st = STATUSOFF
  /\ relayPin st = RELAYOFF
  /\ ledGreenPin st = false /\ ledRedPin st = false
  /\ bootAdminMode st = negb (boot_adminButtonPin b)
  /\ EEPROM st = e
  /\ printed (snd (setup b e))
     = ("boot"%string, 0)
         :: (if boot_adminButtonPin b then [] else [("bootadmin"%string, 0)]).
Proof.
  destruct b as [rp rpi ab ms]. destruct ab; cbn; repeat split.
Qed.

(** ** What the timed rules leave alone *)

Ltac split_goal_ifs :=
  repeat match goal with
         | |- context [if ?c then _ else _] => destruct c
         end.

Ltac timed_rules_cases st :=
  destruct st as [s bam fpm rtm rgm afi rp lg lr e];
  unfold timed_rules;
  cbn [systemStatus bootAdminMode fobPresentMilli runTimeMilli runningGraceMilli
       activeFobId relayPin ledGreenPin ledRedPin EEPROM];
  destruct s; cbn [status_eqb andb];
  split_goal_ifs.

Lemma timed_rules_keeps (inp : inputs) (st : state) :
  EEPROM (fst (timed_rules inp st)) = EEPROM st
  /\ (bootAdminMode (fst (timed_rules inp st)) = bootAdminMode st
      \/ bootAdminMode (fst (timed_rules inp st)) = false).
Proof. timed_rules_cases st; cbn; split; auto. Qed.

(** The timed rules never write the EEPROM, the active fob id or the
    time of the last fob; they never switch the relay on and never
    enter boot-admin mode; what they print is never "login", "added",
    "admin", "deleted" or "denied". *)
Theorem timed_rules_leave_alone (inp : inputs) (st : state) :
  let st1 := fst (timed_rules inp st) in
  EEPROM st1 = EEPROM st
  /\ activeFobId st1 = activeFobId st
  /\ fobPresentMilli st1 = fobPresentMilli st
  /\ (relayPin st1 = relayPin st \/ relayPin st1 = RELAYOFF)
  /\ (bootAdminMode st1 = bootAdminMode st \/ bootAdminMode st1 = false)
  /\ Forall (fun line => In (fst line) ["start"; "stop"; "restart"; "logout"; "timeout"]%string)
            (printed (snd (timed_rules inp st))).
Proof.
  timed_rules_cases st; cbn;
    repeat split; auto;
    repeat constructor; cbn; tauto.
Qed.

(** ** The relay follows the status *)

Lemma timed_rules_relay_consistent (inp : inputs) (st : state) :
  relay_consistent st = true -> relay_consistent (fst (timed_rules inp st)) = true.
Proof.
  unfold relay_consistent.
  timed_rules_cases st; cbn; intros Hinv; first [exact Hinv | reflexivity].
Qed.

Opaque checkAuthTag addAuthTag clearAuthTags checkAdminTag.

Lemma present_fob_relay_consistent (adminButton : bool) (now_del fobId : Z) (st : state) :
  relay_consistent st = true ->
  relay_consistent (fst (present_fob adminButton now_del fobId st)) = true.
Proof.
  intros Hinv.
  destruct (present_fob adminButton now_del fobId st) as [st1 eff1] eqn:Hfirst.
  cbn [fst]. destruct st as [s bam fpm rtm rgm afi rp lg lr e].
  unfold present_fob in Hfirst. unfold relay_consistent in *.
  cbn [systemStatus bootAdminMode activeFobId EEPROM relayPin] in *.
  destruct (checkAdminTag_cases fobId) as [[Hadm Hz]|[Hadm Hz]];
    rewrite Hadm, Hz in *; clear Hadm Hz;
    destruct adminButton, bam, s;
    cbn [eqb ADMINDOWN status_eqb andb orb negb] in Hfirst;
    split_in Hfirst;
    injection Hfirst as <- <-;
    cbn; first [exact Hinv | reflexivity | discriminate Hinv].
Qed.

Transparent checkAuthTag addAuthTag clearAuthTags checkAdminTag.

Lemma loop_relay_consistent (inp : inputs) (st : state) :
  relay_consistent st = true -> relay_consistent (fst (loop inp st)) = true.
Proof.
  intros Hinv. unfold loop.
  pose proof (timed_rules_relay_consistent inp st Hinv) as Htimed.
  destruct (timed_rules inp st) as [st1 eff1]. cbn [fst] in Htimed.
  destruct (rfid_receive (in_rfid inp)) as [fobId|]; [|exact Htimed].
  pose proof (present_fob_relay_consistent (in_adminButtonPin_rx inp) (in_millis_del inp)
                fobId (set_fobPresentMilli (in_millis_rx inp) st1)) as Hfob.
  destruct (present_fob _ _ _ _) as [st3 eff3]. cbn [fst] in *.
  apply Hfob. destruct st1. exact Htimed.
Qed.

Lemma run_relay_consistent (inps : list inputs) : forall st,
  relay_consistent st = true -> relay_consistent (fst (run inps st)) = true.
Proof.
  induction inps as [|inp rest IH]; intros st Hinv; [exact Hinv|].
  cbn [run]. pose proof (loop_relay_consistent inp st Hinv) as Hstep.
  destruct (loop inp st) as [st1 eff1]. cbn [fst] in Hstep.
  specialize (IH st1 Hstep). destruct (run rest st1) as [st2 eff2]. exact IH.
Qed.

(** In every state reached from [setup()] by any number of passes of
    [loop()], whatever is read from the pins, the clock and the serial
    port: while the status is [STATUSTURNON], [STATUSON] or
    [STATUSTURNOFF] the relay is on, while it is [STATUSDENIED] the
    relay is off, and the status is never [STATUSUNK]. *)
Theorem relay_follows_status (b : boot_inputs) (e : list Z) (inps : list inputs) :
  let st := fst (run inps (fst (setup b e))) in
  match systemStatus st with
  | STATUSUNK => False
  | STATUSTURNON | STATUSON | STATUSTURNOFF => relayPin st = RELAYON
  | STATUSDENIED => relayPin st = RELAYOFF
  | _ => True
  end.
Proof.
  intros st.
  assert (Hinv : relay_consistent st = true).
  { apply run_relay_consistent. destruct b as [rp rpi ab ms]. destruct ab; reflexivity. }
  unfold relay_consistent in Hinv.
  destruct (systemStatus st); try exact I; try discriminate Hinv;
    destruct (relayPin st); (reflexivity || discriminate Hinv).
Qed.

(** ** What a fob can and cannot do *)

Opaque checkAuthTag addAuthTag clearAuthTags checkAdminTag.

Ltac present_fob_cases Hfirst fobId st :=
  destruct st as [s bam fpm rtm rgm afi rp lg lr e];
  unfold present_fob in Hfirst;
  cbn [systemStatus bootAdminMode activeFobId EEPROM relayPin] in *;
  destruct (checkAdminTag_cases fobId) as [[Hadm Hz]|[Hadm Hz]];
  rewrite Hadm, Hz in *.



(** While the status is [STATUSON] or [STATUSTURNON] the admin button
    is not looked at: a fob is handled in the same way whether the
    button is held or not, and the EEPROM is left as it is. *)
Theorem admin_button_ignored_while_on (b b' : bool) (now_del now_del' fobId : Z)
        (st : state) :
  systemStatus st = STATUSON \/ systemStatus st = STATUSTURNON ->
  present_fob b now_del fobId st = present_fob b' now_del' fobId st
  /\ EEPROM (fst (present_fob b now_del fobId st)) = EEPROM st.
Proof.
  intros Hs. destruct st as [s bam fpm rtm rgm afi rp lg lr e].
  cbn [systemStatus] in Hs. unfold present_fob.
  cbn [systemStatus bootAdminMode activeFobId EEPROM].
  destruct Hs as [-> | ->]; destruct b, b';
    cbn [eqb ADMINDOWN status_eqb andb orb negb];
    (split; [reflexivity|]);
    split_goal_ifs; reflexivity.
Qed.

Lemma admin_button_ignored_while_on_witness :
  let st := mkState STATUSON false 0 0 0 admin_fob true true false factory_eeprom in
  present_fob ADMINDOWN 0 admin_fob st = present_fob (negb ADMINDOWN) 5 admin_fob st
  /\ EEPROM (fst (present_fob ADMINDOWN 0 admin_fob st)) = EEPROM st.
Proof. apply admin_button_ignored_while_on. left. reflexivity. Defined.

Lemma present_fob_released_EEPROM (now_del fobId : Z) (st : state) :
  EEPROM (fst (present_fob (negb ADMINDOWN) now_del fobId st)) = EEPROM st.
Proof.
  destruct st as [s bam fpm rtm rgm afi rp lg lr e]. unfold present_fob.
  cbn [systemStatus bootAdminMode activeFobId EEPROM].
  change (eqb (negb ADMINDOWN) ADMINDOWN) with false. cbn [andb].
  split_goal_ifs; reflexivity.
Qed.

(** The other variables [present_fob] never writes. *)
Lemma present_fob_keeps (adminButton : bool) (now_del fobId : Z) (st : state) :
  let st1 := fst (present_fob adminButton now_del fobId st) in
  bootAdminMode st1 = bootAdminMode st
  /\ runTimeMilli st1 = runTimeMilli st
  /\ runningGraceMilli st1 = runningGraceMilli st
  /\ (EEPROM st1 = EEPROM st
      \/ (bootAdminMode st = true /\ EEPROM st1 = clearAuthTags (EEPROM st))
      \/ EEPROM st1 = fst (addAuthTag (EEPROM st) fobId)).
Proof.
  destruct (present_fob adminButton now_del fobId st) as [st1 eff1] eqn:Hfirst.
  cbn [fst]. present_fob_cases Hfirst fobId st; clear Hadm Hz;
    destruct adminButton, bam, s;
    cbn [eqb ADMINDOWN status_eqb andb orb negb] in Hfirst;
    split_in Hfirst;
    injection Hfirst as <- <-;
    cbn [systemStatus bootAdminMode activeFobId EEPROM runTimeMilli runningGraceMilli
         set_systemStatus set_bootAdminMode set_fobPresentMilli set_activeFobId
         set_relayPin set_leds set_EEPROM fst];
    (split; [reflexivity|]); (split; [reflexivity|]); (split; [reflexivity|]);
    first [ left; reflexivity
          | right; left; split; reflexivity
          | right; right; reflexivity ].
Qed.

Transparent checkAuthTag addAuthTag clearAuthTags checkAdminTag.

(** A pass of [loop()] in which the admin button reads released when
    the frame is handled never changes the EEPROM: no fob is added and
    nothing is erased without the admin button. *)
Theorem loop_needs_admin_button (inp : inputs) (st : state) :
  in_adminButtonPin_rx inp = negb ADMINDOWN ->
  EEPROM (fst (loop inp st)) = EEPROM st.
Proof.
  intros Hb. unfold loop.
  pose proof (timed_rules_keeps inp st) as (He & _).
  destruct (timed_rules inp st) as [st1 eff1]. cbn [fst] in He.
  destruct (rfid_receive (in_rfid inp)) as [fobId|]; [|exact He].
  rewrite Hb.
  pose proof (present_fob_released_EEPROM (in_millis_del inp) fobId
                (set_fobPresentMilli (in_millis_rx inp) st1)) as Hfob.
  destruct (present_fob _ _ _ _) as [st3 eff3]. cbn [fst] in *.
  rewrite Hfob. destruct st1. exact He.
Qed.

Lemma loop_needs_admin_button_witness :
  EEPROM (fst (loop (swipe false false 1000 fobA_frame) (power_on factory_eeprom)))
  = EEPROM (power_on factory_eeprom).
Proof. apply loop_needs_admin_button. reflexivity. Defined.

(** ** Entries in use are kept *)

Lemma addAuthTag_keeps_used_entry (e : list Z) (fobId : Z) (k i : nat) :
  (k < slot_count)%nat -> entry_free (slot_status e k) = false -> (i < 5)%nat ->
  fst (addAuthTag e fobId) !! (5 * k + i)%nat = e !! (5 * k + i)%nat.
Proof.
  intros Hk Hused Hi.
  destruct (first_true (fun j => entry_free (slot_status e j)) slot_count)
    as [Hfull|(j & Hj & Hfree & Hmin)].
  - rewrite (addAuthTag_full e fobId Hfull). reflexivity.
  - rewrite (addAuthTag_at_first_free e fobId j Hj Hfree Hmin). cbn [fst].
    assert (Hne : k <> j) by (intros ->; rewrite Hused in Hfree; discriminate Hfree).
    apply write_entry_lookup_other. lia.
Qed.

Lemma loop_without_boot_admin (inp : inputs) (st : state) :
  bootAdminMode st = false ->
  bootAdminMode (fst (loop inp st)) = false
  /\ (EEPROM (fst (loop inp st)) = EEPROM st
      \/ exists fobId, EEPROM (fst (loop inp st)) = fst (addAuthTag (EEPROM st) fobId)).
Proof.
  intros Hbam. unfold loop.
  pose proof (timed_rules_keeps inp st) as (He & Hb).
  destruct (timed_rules inp st) as [st1 eff1]. cbn [fst] in He, Hb.
  assert (Hbam1 : bootAdminMode st1 = false) by (destruct Hb; congruence).
  destruct (rfid_receive (in_rfid inp)) as [fobId|]; [|split; [exact Hbam1|left; exact He]].
  pose proof (present_fob_keeps (in_adminButtonPin_rx inp) (in_millis_del inp) fobId
                (set_fobPresentMilli (in_millis_rx inp) st1)) as (Hb3 & _ & _ & He3).
  destruct (present_fob _ _ _ _) as [st3 eff3]. cbn [fst] in *.
  destruct st1 as [s1 bam1 fpm1 rtm1 rgm1 afi1 rp1 lg1 lr1 e1].
  cbn [bootAdminMode EEPROM set_fobPresentMilli] in *. subst e1 bam1.
  split; [exact Hb3|].
  destruct He3 as [He3|[[Habs _]|He3]]; [left; exact He3|discriminate Habs|].
  right. exists fobId. exact He3.
Qed.

Lemma run_keeps_used_entry (k : nat) (inps : list inputs) : forall st,
  bootAdminMode st = false ->
  (k < slot_count)%nat -> entry_free (slot_status (EEPROM st) k) = false ->
  bootAdminMode (fst (run inps st)) = false
  /\ forall i, (i < 5)%nat ->
       EEPROM (fst (run inps st)) !! (5 * k + i)%nat = EEPROM st !! (5 * k + i)%nat.
Proof.
  induction inps as [|inp rest IH]; intros st Hbam Hk Hused.
  - split; [exact Hbam|reflexivity].
  - cbn [run].
    destruct (loop_without_boot_admin inp st Hbam) as [Hbam1 He1].
    destruct (loop inp st) as [st1 eff1]. cbn [fst] in Hbam1, He1.
    assert (Hbytes : forall i, (i < 5)%nat ->
              EEPROM st1 !! (5 * k + i)%nat = EEPROM st !! (5 * k + i)%nat).
    { intros i Hi. destruct He1 as [->|[fobId ->]]; [reflexivity|].
      apply addAuthTag_keeps_used_entry; assumption. }
    assert (Hused1 : entry_free (slot_status (EEPROM st1) k) = false).
    { unfold slot_status, EEPROM_read in *. rewrite Hbytes by lia. exact Hused. }
    destruct (IH st1 Hbam1 Hk Hused1) as [Hbam2 Hbytes2].
    destruct (run rest st1) as [st2 eff2]. cbn [fst] in *.
    split; [exact Hbam2|]. intros i Hi. rewrite Hbytes2, Hbytes by exact Hi. reflexivity.
Qed.

(** Outside boot-admin mode no run of [loop()] changes an entry that is
    in use (status neither 0x00 nor 0xFF): its status byte and its fob
    id stay as they are, whatever fobs are presented and whatever the
    buttons and pins read; and boot-admin mode is never entered by
    [loop()]. *)
Theorem enrolled_entries_persist (inps : list inputs) (st : state) (k : nat) :
  bootAdminMode st = false ->
  (k < slot_count)%nat ->
  entry_free (slot_status (EEPROM st) k) = false ->
  let st' := fst (run inps st) in
  bootAdminMode st' = false
  /\ slot_status (EEPROM st') k = slot_status (EEPROM st) k
  /\ slot_id (EEPROM st') k = slot_id (EEPROM st) k.
Proof.
  intros Hbam Hk Hused st'.
  destruct (run_keeps_used_entry k inps st Hbam Hk Hused) as [Hbam' Hbytes].
  fold st' in Hbam', Hbytes. split; [exact Hbam'|].
  unfold slot_status, slot_id, read_entryId. cbn [seq fold_left]. unfold EEPROM_read.
  rewrite !Hbytes by lia. split; reflexivity.
Qed.

Lemma enrolled_entries_persist_witness :
  let st := fst (setup normal_boot (fst (addAuthTag factory_eeprom fobA))) in
  let st' := fst (run enroll_two st) in
  bootAdminMode st' = false
  /\ slot_status (EEPROM st') 0 = slot_status (EEPROM st) 0
  /\ slot_id (EEPROM st') 0 = slot_id (EEPROM st) 0.
Proof.
  apply enrolled_entries_persist.
  - reflexivity.
  - unfold slot_count. lia.
  - vm_compute. reflexivity.
Defined.

(** ** Order of the timed rules *)

(** The running signal is tested before the timeouts: in
    [STATUSTURNON] and in [STATUSTURNOFF] a pass that reads the machine
    as running goes to [STATUSON] and leaves the relay as it is, however
    long ago the fob was presented or the machine stopped. *)
Theorem running_signal_wins (inp : inputs) (st : state) :
  machine_running inp = true ->
  systemStatus st = STATUSTURNON \/ systemStatus st = STATUSTURNOFF ->
  systemStatus (fst (timed_rules inp st)) = STATUSON
  /\ relayPin (fst (timed_rules inp st)) = relayPin st
  /\ EEPROM (fst (timed_rules inp st)) = EEPROM st.
Proof.
  intros Hrun Hs. destruct st as [s bam fpm rtm rgm afi rp lg lr e].
  cbn [systemStatus] in Hs. unfold timed_rules. rewrite Hrun.
  cbn [systemStatus]. destruct Hs as [-> | ->]; cbn; repeat split.
Qed.

Lemma running_signal_wins_witness :
  let st := mkState STATUSTURNOFF false 0 0 1000 admin_fob true true false factory_eeprom in
  let inp := quiet true false 900000 in
  systemStatus (fst (timed_rules inp st)) = STATUSON
  /\ relayPin (fst (timed_rules inp st)) = relayPin st
  /\ EEPROM (fst (timed_rules inp st)) = EEPROM st.
Proof.
  apply running_signal_wins; [reflexivity|right; reflexivity].
Defined.

(** ** Sessions, denials, erase and enrollment *)

Lemma timed_out_small (now marker timeout : Z) :
  0 <= marker -> 0 <= timeout -> marker + timeout < 2^32 ->
  timed_out now marker timeout = (marker + timeout <? now).
Proof. intros Hm Ht Hsum. unfold timed_out. rewrite Z.mod_small by lia. reflexivity. Qed.

Ltac state_fields :=
  cbn [systemStatus bootAdminMode fobPresentMilli runTimeMilli runningGraceMilli
       activeFobId relayPin ledGreenPin ledRedPin EEPROM
       set_systemStatus set_bootAdminMode set_fobPresentMilli set_runTimeMilli
       set_runningGraceMilli set_activeFobId set_relayPin set_leds set_EEPROM
       status_eqb andb orb negb fst snd].

Opaque checkAuthTag addAuthTag clearAuthTags checkAdminTag.

(** A fob found by [checkAuthTag] or in the admin list, presented in
    [STATUSOFF] with the admin button released, opens a session: the
    relay is switched on, the status is [STATUSTURNON], "login" is
    printed.  If the machine is not seen running, a later pass ends the
    session (relay off, "timeout" printed) once more than
    [startupTimeout] ms have passed since the fob was read, and leaves
    the session as it is before that (clock not wrapping). *)
Theorem login_then_startup_timeout (st : state) (fobId t now_del : Z) (inp : inputs) :
  systemStatus st = STATUSOFF ->
  checkAuthTag (EEPROM st) fobId <> 0 \/ checkAdminTag fobId <> 0 ->
  0 <= t -> t + startupTimeout < 2^32 ->
  machine_running inp = false ->
  let r1 := present_fob (negb ADMINDOWN) now_del fobId (set_fobPresentMilli t st) in
  let r2 := timed_rules inp (fst r1) in
  (systemStatus (fst r1) = STATUSTURNON
   /\ relayPin (fst r1) = RELAYON
   /\ activeFobId (fst r1) = fobId
   /\ printed (snd r1) = [("login"%string, fobId)])
  /\ (t + startupTimeout < in_millis inp ->
      systemStatus (fst r2) = STATUSOFF
      /\ relayPin (fst r2) = RELAYOFF
      /\ printed (snd r2) = [("timeout"%string, fobId)])
  /\ (in_millis inp <= t + startupTimeout ->
      systemStatus (fst r2) = STATUSTURNON
      /\ relayPin (fst r2) = RELAYON
      /\ snd r2 = []).
Proof.
  intros Hs Hknown Ht Hsum Hrun r1 r2. subst r2 r1.
  destruct st as [s bam fpm rtm rgm afi rp lg lr e]. cbn [systemStatus EEPROM] in *.
  subst s. unfold present_fob.
  cbn [systemStatus bootAdminMode activeFobId EEPROM set_fobPresentMilli].
  change (eqb (negb ADMINDOWN) ADMINDOWN) with false. cbn [andb].
  assert (Hcond : negb (checkAuthTag e fobId =? 0) || negb (checkAdminTag fobId =? 0) = true).
  { destruct Hknown as [Hk|Hk]; apply Z.eqb_neq in Hk; rewrite Hk;
      [reflexivity|apply orb_true_r]. }
  rewrite Hcond. state_fields.
  split; [repeat split|].
  unfold timed_rules. rewrite Hrun. state_fields.
  rewrite timed_out_small by (unfold startupTimeout in *; lia).
  split; intros Hnow.
  - destruct (Z.ltb_spec (t + startupTimeout) (in_millis inp)); [|lia]. repeat split.
  - destruct (Z.ltb_spec (t + startupTimeout) (in_millis inp)); [lia|].
    destruct bam; cbn [andb]; split_goal_ifs; state_fields; repeat split.
Qed.

Lemma login_then_startup_timeout_witness :
  let st := fst (setup normal_boot factory_eeprom) in
  let r1 := present_fob (negb ADMINDOWN) 1000 admin_fob (set_fobPresentMilli 1000 st) in
  let r2 := timed_rules (quiet false false 11001) (fst r1) in
  (systemStatus (fst r1) = STATUSTURNON
   /\ relayPin (fst r1) = RELAYON
   /\ activeFobId (fst r1) = admin_fob
   /\ printed (snd r1) = [("login"%string, admin_fob)])
  /\ systemStatus (fst r2) = STATUSOFF
  /\ relayPin (fst r2) = RELAYOFF
  /\ printed (snd r2) = [("timeout"%string, admin_fob)].
Proof.
  intros st r1 r2.
  assert (Hknown : checkAuthTag (EEPROM st) admin_fob <> 0 \/ checkAdminTag admin_fob <> 0)
    by (right; vm_compute; discriminate).
  assert (Hsum : 1000 + startupTimeout < 2^32) by (unfold startupTimeout; lia).
  destruct (login_then_startup_timeout st admin_fob 1000 1000 (quiet false false 11001)
              eq_refl Hknown ltac:(lia) Hsum eq_refl) as (Hlogin & Hlate & _).
  split; [exact Hlogin|]. apply Hlate. unfold startupTimeout. cbn. lia.
Defined.

(** A fob that is neither found by [checkAuthTag] nor in the admin
    list, presented in [STATUSOFF] with the admin button released: the
    status becomes [STATUSDENIED], the relay is off, the red LED is on,
    "denied" is printed.  A later pass returns to [STATUSOFF] without
    printing anything once more than [deniedTimeout] ms have passed, and
    stays in [STATUSDENIED] before that (clock not wrapping). *)
Theorem denied_then_off (st : state) (fobId t now_del : Z) (inp : inputs) :
  systemStatus st = STATUSOFF ->
  checkAuthTag (EEPROM st) fobId = 0 -> checkAdminTag fobId = 0 ->
  0 <= t -> t + deniedTimeout < 2^32 ->
  let r1 := present_fob (negb ADMINDOWN) now_del fobId (set_fobPresentMilli t st) in
  let r2 := timed_rules inp (fst r1) in
  (systemStatus (fst r1) = STATUSDENIED
   /\ relayPin (fst r1) = RELAYOFF
   /\ ledRedPin (fst r1) = true /\ ledGreenPin (fst r1) = false
   /\ EEPROM (fst r1) = EEPROM st
   /\ printed (snd r1) = [("denied"%string, fobId)])
  /\ (t + deniedTimeout < in_millis inp ->
      systemStatus (fst r2) = STATUSOFF
      /\ relayPin (fst r2) = RELAYOFF
      /\ snd r2 = [])
  /\ (in_millis inp <= t + deniedTimeout ->
      systemStatus (fst r2) = STATUSDENIED /\ snd r2 = []).
Proof.
  intros Hs Hauth Hadmin Ht Hsum r1 r2. subst r2 r1.
  destruct st as [s bam fpm rtm rgm afi rp lg lr e]. cbn [systemStatus EEPROM] in *.
  subst s. unfold present_fob.
  cbn [systemStatus bootAdminMode activeFobId EEPROM set_fobPresentMilli].
  change (eqb (negb ADMINDOWN) ADMINDOWN) with false. cbn [andb].
  rewrite Hauth, Hadmin. change (0 =? 0) with true.
  state_fields.
  split; [repeat split|].
  unfold timed_rules. state_fields.
  rewrite timed_out_small by (unfold deniedTimeout in *; lia).
  split; intros Hnow.
  - destruct (Z.ltb_spec (t + deniedTimeout) (in_millis inp)); [|lia]. repeat split.
  - destruct (Z.ltb_spec (t + deniedTimeout) (in_millis inp)); [lia|].
    destruct bam; cbn [andb]; split_goal_ifs; state_fields; repeat split.
Qed.

Lemma denied_then_off_witness :
  let st := fst (setup normal_boot factory_eeprom) in
  let r1 := present_fob (negb ADMINDOWN) 1000 fobA (set_fobPresentMilli 1000 st) in
  let r2 := timed_rules (quiet false false 4001) (fst r1) in
  (systemStatus (fst r1) = STATUSDENIED
   /\ relayPin (fst r1) = RELAYOFF
   /\ ledRedPin (fst r1) = true /\ ledGreenPin (fst r1) = false
   /\ EEPROM (fst r1) = EEPROM st
   /\ printed (snd r1) = [("denied"%string, fobA)])
  /\ systemStatus (fst r2) = STATUSOFF
  /\ relayPin (fst r2) = RELAYOFF
  /\ snd r2 = [].
Proof.
  intros st r1 r2.
  assert (Hauth : checkAuthTag (EEPROM st) fobA = 0) by (vm_compute; reflexivity).
  assert (Hadmin : checkAdminTag fobA = 0) by (vm_compute; reflexivity).
  assert (Hsum : 1000 + deniedTimeout < 2^32) by (unfold deniedTimeout; lia).
  destruct (denied_then_off st fobA 1000 1000 (quiet false false 4001)
              eq_refl Hauth Hadmin ltac:(lia) Hsum) as (Hdenied & Hlate & _).
  split; [exact Hdenied|]. apply Hlate. unfold deniedTimeout. cbn. lia.
Defined.

(** In boot-admin mode a new presentation of an admin fob with the
    admin button held erases the table: the EEPROM becomes
    [clearAuthTags] of what it was, the status is [STATUSDEL],
    "deleted" is printed, the relay is left as it is, and from then on
    [checkAuthTag] returns 0 for every fob id. *)
Theorem boot_admin_erase (st : state) (fobId now_del : Z) :
  bootAdminMode st = true ->
  checkAdminTag fobId = statusAdmin ->
  length (EEPROM st) = eepLength ->
  systemStatus st <> STATUSON -> systemStatus st <> STATUSTURNON ->
  systemStatus st <> STATUSDEL \/ activeFobId st <> fobId ->
  let r := present_fob ADMINDOWN now_del fobId st in
  EEPROM (fst r) = clearAuthTags (EEPROM st)
  /\ systemStatus (fst r) = STATUSDEL
  /\ relayPin (fst r) = relayPin st
  /\ printed (snd r) = [("deleted"%string, fobId)]
  /\ forall other, checkAuthTag (EEPROM (fst r)) other = 0.
Proof.
  intros Hbam Hadm Hlen Hon Hturnon Hnew r. subst r.
  assert (He : EEPROM (fst (present_fob ADMINDOWN now_del fobId st))
               = clearAuthTags (EEPROM st)
               /\ systemStatus (fst (present_fob ADMINDOWN now_del fobId st)) = STATUSDEL
               /\ relayPin (fst (present_fob ADMINDOWN now_del fobId st)) = relayPin st
               /\ printed (snd (present_fob ADMINDOWN now_del fobId st))
                  = [("deleted"%string, fobId)]).
  { destruct st as [s bam fpm rtm rgm afi rp lg lr e].
    cbn [systemStatus bootAdminMode activeFobId EEPROM relayPin] in *. subst bam.
    unfold present_fob. cbn [systemStatus bootAdminMode activeFobId EEPROM].
    rewrite Hadm, Z.eqb_refl.
    destruct (afi =? fobId) eqn:Hafi;
      [apply Z.eqb_eq in Hafi|apply Z.eqb_neq in Hafi];
      destruct s;
      try solve [exfalso; apply Hon; reflexivity | exfalso; apply Hturnon; reflexivity];
      try (exfalso; destruct Hnew as [Hnew|Hnew]; apply Hnew; (reflexivity || assumption));
      cbn; repeat split. }
  destruct He as (He & Hs & Hr & Hp). repeat split; try assumption.
  intros other. rewrite He. apply checkAuthTag_clearAuthTags. exact Hlen.
Qed.

Lemma boot_admin_erase_witness :
  let st := fst (setup admin_boot (fst (addAuthTag factory_eeprom fobA))) in
  let r := present_fob ADMINDOWN 1000 admin_fob st in
  EEPROM (fst r) = clearAuthTags (EEPROM st)
  /\ systemStatus (fst r) = STATUSDEL
  /\ relayPin (fst r) = relayPin st
  /\ printed (snd r) = [("deleted"%string, admin_fob)]
  /\ forall other, checkAuthTag (EEPROM (fst r)) other = 0.
Proof.
  apply boot_admin_erase.
  - reflexivity.
  - vm_compute. reflexivity.
  - vm_compute. reflexivity.
  - vm_compute. discriminate.
  - vm_compute. discriminate.
  - left. vm_compute. discriminate.
Defined.

(** In [STATUSADD], a fob that is no admin fob and whose id no entry
    carries, presented with the admin button held while an entry is
    free: the status becomes [STATUSADDED], "added" is printed, the
    relay is left as it is, and [checkAuthTag] finds the fob as
    authorized afterwards. *)
Theorem enroll_new_fob (st : state) (fobId now_del : Z) (k0 : nat) :
  systemStatus st = STATUSADD ->
  checkAdminTag fobId = 0 ->
  length (EEPROM st) = eepLength -> 0 <= fobId < 2^32 ->
  (forall k, (k < slot_count)%nat -> slot_id (EEPROM st) k <> fobId) ->
  (k0 < slot_count)%nat -> entry_free (slot_status (EEPROM st) k0) = true ->
  let r := present_fob ADMINDOWN now_del fobId st in
  systemStatus (fst r) = STATUSADDED
  /\ relayPin (fst r) = relayPin st
  /\ printed (snd r) = [("added"%string, fobId)]
  /\ checkAuthTag (EEPROM (fst r)) fobId = statusAuthorized.
Proof.
  intros Hs Hadm Hlen Hf Hnew Hk0 Hfree0 r. subst r.
  pose proof (checkAuthTag_no_match (EEPROM st) fobId Hnew) as Hauth.
  destruct (first_true (fun k => entry_free (slot_status (EEPROM st) k)) slot_count)
    as [Hfull|(k & Hk & Hfree & Hmin)];
    [rewrite (Hfull k0 Hk0) in Hfree0; discriminate Hfree0|].
  pose proof (addAuthTag_at_first_free (EEPROM st) fobId k Hk Hfree Hmin) as Hadd.
  pose proof (checkAuthTag_addAuthTag_fresh (EEPROM st) fobId k Hlen Hf Hk Hfree Hmin
                (fun j Hj => Hnew j (proj2 Hj))) as Hfound.
  rewrite Hadd in Hfound. cbn [fst] in Hfound.
  destruct st as [s bam fpm rtm rgm afi rp lg lr e].
  cbn [systemStatus bootAdminMode activeFobId EEPROM relayPin] in *. subst s.
  unfold present_fob. cbn [systemStatus bootAdminMode activeFobId EEPROM].
  rewrite Hadm, Hauth, Hadd.
  change (0 =? statusAdmin) with false. change (0 =? 0) with true.
  change (statusAuthorized =? 0) with false.
  cbn [eqb ADMINDOWN status_eqb andb orb negb fst snd
       systemStatus relayPin EEPROM set_systemStatus set_EEPROM printed buzz2].
  repeat split. exact Hfound.
Qed.

Transparent checkAuthTag addAuthTag clearAuthTags checkAdminTag.

Lemma enroll_new_fob_witness :
  let st := fst (run [swipe false true 1000 admin_frame]
                     (fst (setup normal_boot factory_eeprom))) in
  let r := present_fob ADMINDOWN 2000 fobA st in
  systemStatus (fst r) = STATUSADDED
  /\ relayPin (fst r) = relayPin st
  /\ printed (snd r) = [("added"%string, fobA)]
  /\ checkAuthTag (EEPROM (fst r)) fobA = statusAuthorized.
Proof.
  apply (enroll_new_fob _ fobA 2000 0).
  - vm_compute. reflexivity.
  - vm_compute. reflexivity.
  - vm_compute. reflexivity.
  - unfold fobA. lia.
  - intros k Hk. unfold slot_id, read_entryId. cbn [seq fold_left].
    change (EEPROM _) with factory_eeprom.
    rewrite !factory_read by (unfold eepLength, slot_count in *; lia).
    vm_compute. discriminate.
  - unfold slot_count. lia.
  - vm_compute. reflexivity.
Defined.

(** In [STATUSON] a pass that reads the machine as stopped enters
    [STATUSTURNOFF], notes the time and prints "stop" with the seconds
    the machine ran; the relay stays as it is.  A later pass that still
    reads the machine as stopped ends the session (relay and LEDs off,
    "logout" printed) once more than [runningStopTimeout] ms have
    passed, and changes nothing of the session before that (clock not
    wrapping). *)
Theorem stop_then_logout (st : state) (inp1 inp2 : inputs) :
  systemStatus st = STATUSON ->
  machine_running inp1 = false -> machine_running inp2 = false ->
  0 <= in_millis inp1 -> in_millis inp1 + runningStopTimeout < 2^32 ->
  let r1 := timed_rules inp1 st in
  let r2 := timed_rules inp2 (fst r1) in
  (systemStatus (fst r1) = STATUSTURNOFF
   /\ relayPin (fst r1) = relayPin st
   /\ runningGraceMilli (fst r1) = in_millis inp1
   /\ snd r1 = [Serial_println "stop" (activeFobId st)
                  (seconds_since (in_millis inp1) (runTimeMilli st))])
  /\ (in_millis inp1 + runningStopTimeout < in_millis inp2 ->
      systemStatus (fst r2) = STATUSOFF
      /\ relayPin (fst r2) = RELAYOFF
      /\ ledGreenPin (fst r2) = false /\ ledRedPin (fst r2) = false
      /\ printed (snd r2) = [("logout"%string, activeFobId st)])
  /\ (in_millis inp2 <= in_millis inp1 + runningStopTimeout ->
      systemStatus (fst r2) = STATUSTURNOFF
      /\ relayPin (fst r2) = relayPin st
      /\ snd r2 = []).
Proof.
  intros Hs Hrun1 Hrun2 Ht Hsum r1 r2. subst r2 r1.
  destruct st as [s bam fpm rtm rgm afi rp lg lr e]. cbn [systemStatus] in Hs. subst s.
  assert (Hstop : timed_rules inp1 (mkState STATUSON bam fpm rtm rgm afi rp lg lr e)
                  = (mkState STATUSTURNOFF bam fpm rtm (in_millis inp1) afi rp lg lr e,
                     [Serial_println "stop" afi (seconds_since (in_millis inp1) rtm)])).
  { unfold timed_rules. rewrite Hrun1. reflexivity. }
  rewrite Hstop. state_fields.
  split; [repeat split|].
  unfold timed_rules. rewrite Hrun2. state_fields.
  rewrite timed_out_small by (unfold runningStopTimeout in *; lia).
  split; intros Hnow.
  - destruct (Z.ltb_spec (in_millis inp1 + runningStopTimeout) (in_millis inp2)); [|lia].
    repeat split.
  - destruct (Z.ltb_spec (in_millis inp1 + runningStopTimeout) (in_millis inp2)); [lia|].
    destruct bam; cbn [andb]; split_goal_ifs; state_fields; repeat split.
Qed.

Lemma stop_then_logout_witness :
  let st := mkState STATUSON false 1000 2000 0 admin_fob true true false factory_eeprom in
  let r1 := timed_rules (quiet false false 62000) st in
  let r2 := timed_rules (quiet false false 65001) (fst r1) in
  (systemStatus (fst r1) = STATUSTURNOFF
   /\ relayPin (fst r1) = relayPin st
   /\ runningGraceMilli (fst r1) = 62000
   /\ snd r1 = [Serial_println "stop" admin_fob (seconds_since 62000 2000)])
  /\ systemStatus (fst r2) = STATUSOFF
  /\ relayPin (fst r2) = RELAYOFF
  /\ ledGreenPin (fst r2) = false /\ ledRedPin (fst r2) = false
  /\ printed (snd r2) = [("logout"%string, admin_fob)].
Proof.
  intros st r1 r2.
  assert (Hsum : 62000 + runningStopTimeout < 2^32) by (unfold runningStopTimeout; lia).
  destruct (stop_then_logout st (quiet false false 62000) (quiet false false 65001)
              eq_refl eq_refl eq_refl ltac:(cbn; lia) Hsum) as (Hstop & Hlate & _).
  split; [exact Hstop|]. apply Hlate. unfold runningStopTimeout. cbn. lia.
Defined.
